(** * FootballVideoAnalyzer: tag registry, clip bookkeeping, time codes and
      project files

    A shallow embedding of the logic of [src/main.py] and
    [src/SiamakEditor.py], and the properties of it that the specification
    states.  Python objects become records, dictionaries become finite maps
    ([gmap]) or JSON-style association lists, attributes that may be absent
    ([hasattr]) become options, and exceptions become an explicit outcome. *)

From Stdlib Require Import ZArith QArith Qround Lia Floats Ascii HexadecimalString.
From stdpp Require Import base option list gmap strings pretty.

(** ** The palette and the tag manager (class [TagManager]) *)

(** [self.available_colors], assigned once in [__init__] and never again. *)
Definition available_colors : list string :=
  [ "#FF9999"; "#99FF99"; "#9999FF";
    "#FFFF99"; "#FF99FF"; "#99FFFF";
    "#FFCC99"; "#CC99FF"; "#FF6666";
    "#66FF66"; "#6666FF" ].

(** The colour [get_tag_color] falls back to, and the one the editor gives
    every new tag. *)
Definition neutral_color : string := "#DDDDDD".

Record TagManager := mkTagManager {
  tags : list string;
  shortcuts : gmap string string;
  tag_colors : gmap string string
}.

(** [TagManager.__init__] *)
Definition new_TagManager : TagManager :=
  {| tags := []; shortcuts := ∅; tag_colors := ∅ |}.

(** Python truth of an optional string argument: [None] and [""] are false. *)
Definition truthy (o : option string) : option string :=
  match o with
  | Some s => if decide (s = "") then None else Some s
  | None => None
  end.

(** [self.available_colors[i]]: a list subscript, which raises [IndexError]
    out of range. *)
Definition subscript (l : list string) (i : nat) : option string := l !! i.

Module MainPy.

(** [self.available_colors[len(self.tags) % len(self.available_colors)]],
    where [n] is [len(self.tags)] at the moment the expression is
    evaluated.  The subscript is in range for every [n] (lemma
    [palette_subscript] below), so the fallback is never reached. *)
Definition palette_color (n : nat) : string :=
  default neutral_color
    (subscript available_colors (n mod length available_colors)).

(** [src/main.py], [TagManager.add_tag].  The tag is appended first, so the
    length in the palette index already counts the new tag. *)
Definition add_tag (tm : TagManager) (tag : string)
    (shortcut color : option string) : TagManager :=
  if decide (tag ∈ tags tm) then tm
  else
    let tags' := tags tm ++ [tag] in
    let shortcuts' :=
      match truthy shortcut with
      | Some sc => <[tag := sc]> (shortcuts tm)
      | None => shortcuts tm
      end in
    let c :=
      match truthy color with
      | Some c => c
      | None => palette_color (length tags')
      end in
    {| tags := tags'; shortcuts := shortcuts';
       tag_colors := <[tag := c]> (tag_colors tm) |}.

End MainPy.

Module SiamakEditorPy.

(** [src/SiamakEditor.py], [TagManager.add_tag]: new tags are colourless. *)
Definition add_tag (tm : TagManager) (tag : string)
    (shortcut color : option string) : TagManager :=
  if decide (tag ∈ tags tm) then tm
  else
    let tags' := tags tm ++ [tag] in
    let shortcuts' :=
      match truthy shortcut with
      | Some sc => <[tag := sc]> (shortcuts tm)
      | None => shortcuts tm
      end in
    let c :=
      match truthy color with
      | Some c => c
      | None => neutral_color
      end in
    {| tags := tags'; shortcuts := shortcuts';
       tag_colors := <[tag := c]> (tag_colors tm) |}.

End SiamakEditorPy.

(** [get_tag_color], [get_tags], [get_shortcut]: the same in both files. *)
Definition get_tag_color (tm : TagManager) (tag : string) : string :=
  default neutral_color (tag_colors tm !! tag).
Definition get_tags (tm : TagManager) : list string := tags tm.
Definition get_shortcut (tm : TagManager) (tag : string) : option string :=
  shortcuts tm !! tag.

(** One call [add_tag(name, shortcut, color)]. *)
Record add_call := mkCall {
  call_name : string;
  call_shortcut : option string;
  call_color : option string
}.

(** A sequence of calls, run from left to right. *)
Definition call_step
    (add : TagManager → string → option string → option string → TagManager)
    (tm : TagManager) (c : add_call) : TagManager :=
  add tm (call_name c) (call_shortcut c) (call_color c).

Definition run_with
    (add : TagManager → string → option string → option string → TagManager)
    (calls : list add_call) (tm : TagManager) : TagManager :=
  foldl (call_step add) tm calls.

Definition run_main : list add_call → TagManager → TagManager :=
  run_with MainPy.add_tag.

Definition run_editor : list add_call → TagManager → TagManager :=
  run_with SiamakEditorPy.add_tag.

(** The distinct elements of a list, each at its first occurrence. *)
Fixpoint first_occurrences (l : list string) : list string :=
  match l with
  | [] => []
  | x :: l' => x :: filter (λ y, y ≠ x) (first_occurrences l')
  end.

(** [setup_default_tags] *)
Definition default_tags : list add_call :=
  [ mkCall "DefCorner" (Some "Ctrl+1") None;
    mkCall "TraAttToDef" (Some "Ctrl+2") None;
    mkCall "CounterAttack" (Some "Ctrl+3") None;
    mkCall "SetPiece" (Some "Ctrl+4") None;
    mkCall "Goal" (Some "Ctrl+5") None ].

(** ** Python values, exceptions and outcomes *)

(** The values [json.load] produces and [json.dump] accepts.  A document is
    represented by its parsed value: [json.load] of what [json.dump] wrote is
    the value itself for these.  An object keeps its keys in order; a float
    is taken as the rational it stands for. *)
#[warnings="-register-all"] Inductive pyval :=
  | PNone
  | PBool (b : bool)
  | PInt (z : Z)
  | PFloat (x : Q)
  | PStr (s : string)
  | PList (l : list pyval)
  | PDict (kv : list (string * pyval)).

Inductive exn :=
  | AttributeError
  | TypeError
  | KeyError
  | OSError
  | JSONDecodeError.

(** What a call does: it returns, or an exception leaves it; either way the
    object is left in some state. *)
Inductive outcome (A : Type) :=
  | Returned (a : A)
  | Raised (e : exn) (a : A).
Arguments Returned {A} a.
Arguments Raised {A} e a.

(** What the user is shown by a menu action: nothing, an information box, a
    warning box, or the critical box of an [except Exception] handler. *)
Inductive report :=
  | Silent
  | Information
  | Warning
  | Critical (e : exn).

(** [d.get(key, dflt)] on a dictionary. *)
Fixpoint dict_get (kv : list (string * pyval)) (key : string) (dflt : pyval)
    : pyval :=
  match kv with
  | [] => dflt
  | (k, v) :: kv' => if decide (k = key) then v else dict_get kv' key dflt
  end.

(** [key in d] *)
Definition dict_has (kv : list (string * pyval)) (key : string) : bool :=
  bool_decide (key ∈ kv.*1).

(** [int(x)] of a number: truncation toward zero. *)
Definition py_int (x : Q) : Z := Z.quot (Qnum x) (Z.pos (Qden x)).

(** ** The video source (cv2.VideoCapture), as far as the window uses it *)

Record VideoCapture := mkCapture {
  is_opened : bool;
  CAP_PROP_FRAME_COUNT : Q;
  CAP_PROP_FPS : Q;
  CAP_PROP_POS_FRAMES : Z
}.

(** [cap.release()] *)
Definition release (c : VideoCapture) : VideoCapture :=
  {| is_opened := false;
     CAP_PROP_FRAME_COUNT := CAP_PROP_FRAME_COUNT c;
     CAP_PROP_FPS := CAP_PROP_FPS c;
     CAP_PROP_POS_FRAMES := CAP_PROP_POS_FRAMES c |}.

(** [ret, frame = cap.read()]: the next frame, or end of stream. *)
Definition read (c : VideoCapture) : bool * VideoCapture :=
  if is_opened c &&
     Qle_bool (inject_Z (CAP_PROP_POS_FRAMES c + 1)) (CAP_PROP_FRAME_COUNT c)
  then (true, {| is_opened := true;
                 CAP_PROP_FRAME_COUNT := CAP_PROP_FRAME_COUNT c;
                 CAP_PROP_FPS := CAP_PROP_FPS c;
                 CAP_PROP_POS_FRAMES := (CAP_PROP_POS_FRAMES c + 1)%Z |})
  else (false, c).

(** ** The window object (class [FootballVideoAnalyzer])

    Only the attributes the logic reads and writes; widgets and dialogs are
    left out.  [clip_start] and [clip_end] are attributes that exist only
    between a marker and the next added clip ([hasattr] / [delattr]).
    [clips] is whatever was last assigned to [self.clips]. *)
Record Analyzer := mkAnalyzer {
  cap : option VideoCapture;
  video_path : string;
  total_frames : Z;
  fps : Q;
  current_frame : Z;
  playing : bool;
  clips : pyval;
  clip_start : option Z;
  clip_end : option Z
}.

(** [setup_video_playback]: the attributes of a fresh window. *)
Definition setup_video_playback : Analyzer :=
  {| cap := None; video_path := ""; total_frames := 0%Z; fps := 30%Q;
     current_frame := 0%Z; playing := false; clips := PList [];
     clip_start := None; clip_end := None |}.

(** [new_project], [src/main.py] lines 205-219. *)
Definition new_project (self : Analyzer) : Analyzer :=
  {| cap := release <$> cap self;
     video_path := "";
     total_frames := 0%Z;
     fps := fps self;
     current_frame := 0%Z;
     playing := false;
     clips := PList [];
     clip_start := clip_start self;
     clip_end := clip_end self |}.

(** [update_frame], [src/main.py] lines 313-329, without the drawing. *)
Definition update_frame (self : Analyzer) : Analyzer :=
  match cap self with
  | Some c =>
      if playing self then
        let '(ret, c') := read c in
        {| cap := Some c';
           video_path := video_path self;
           total_frames := total_frames self;
           fps := fps self;
           current_frame :=
             if ret then CAP_PROP_POS_FRAMES c' else current_frame self;
           playing := playing self;
           clips := clips self;
           clip_start := clip_start self;
           clip_end := clip_end self |}
      else self
  | None => self
  end.

(** What both definitions of [open_video] do before they part ways: the
    assignments to [video_path], [cap], [total_frames] and [fps]. *)
Definition attach_video (path : string) (video : VideoCapture)
    (self : Analyzer) : Analyzer :=
  {| cap := Some video;
     video_path := path;
     total_frames := py_int (CAP_PROP_FRAME_COUNT video);
     fps := CAP_PROP_FPS video;
     current_frame := current_frame self;
     playing := playing self;
     clips := clips self;
     clip_start := clip_start self;
     clip_end := clip_end self |}.

Definition set_current_frame (n : Z) (self : Analyzer) : Analyzer :=
  {| cap := cap self;
     video_path := video_path self;
     total_frames := total_frames self;
     fps := fps self;
     current_frame := n;
     playing := playing self;
     clips := clips self;
     clip_start := clip_start self;
     clip_end := clip_end self |}.

(** The first [open_video] of the class body, [src/main.py] lines 221-237.
    The second definition below rebinds the name, so this one is never
    called.  [path] is what the file dialog returned and [video] what
    [cv2.VideoCapture(path)] opened. *)
Definition open_video_shadowed (path : string) (video : VideoCapture)
    (self : Analyzer) : Analyzer :=
  if decide (path = "") then self
  else update_frame (set_current_frame 0 (attach_video path video self)).

(** The [open_video] in effect, [src/main.py] lines 384-392. *)
Definition open_video (path : string) (video : VideoCapture)
    (self : Analyzer) : Analyzer :=
  if decide (path = "") then self
  else update_frame (attach_video path video self).

(** ** Clips *)

(** The dictionary [add_clip] appends:
    [{'start': self.clip_start, 'end': self.clip_end, 'tag': tag}]. *)
Definition clip_dict (start end_ : Z) (tag : string) : pyval :=
  PDict [("start", PInt start); ("end", PInt end_); ("tag", PStr tag)].

(** [add_clip], [src/main.py] lines 394-405; [tag] is [self.tag_input.text()].
    There is no [else] and no [raise]: when a marker is absent or the text is
    empty the method falls through and returns.  [self.clips.append] needs a
    list; on anything else Python raises [AttributeError] before any attribute
    has been changed. *)
Definition add_clip (tag : string) (self : Analyzer) : outcome Analyzer :=
  match clip_start self, clip_end self with
  | Some a, Some b =>
      if decide (tag = "") then Returned self
      else
        match clips self with
        | PList l =>
            Returned
              {| cap := cap self;
                 video_path := video_path self;
                 total_frames := total_frames self;
                 fps := fps self;
                 current_frame := current_frame self;
                 playing := playing self;
                 clips := PList (l ++ [clip_dict a b tag]);
                 clip_start := None;
                 clip_end := None |}
        | _ => Raised AttributeError self
        end
  | _, _ => Returned self
  end.

(** Modelled from the spec: the slots [set_clip_start] and [set_clip_end]
    that [setup_video_playback] connects are not in [src/]; the spec describes
    them as [begin_marker(frame)] and [end_marker(frame)], which record the
    pending start and end frame, the last write winning. *)
Definition set_clip_start (frame : Z) (self : Analyzer) : Analyzer :=
  {| cap := cap self;
     video_path := video_path self;
     total_frames := total_frames self;
     fps := fps self;
     current_frame := current_frame self;
     playing := playing self;
     clips := clips self;
     clip_start := Some frame;
     clip_end := clip_end self |}.

Definition set_clip_end (frame : Z) (self : Analyzer) : Analyzer :=
  {| cap := cap self;
     video_path := video_path self;
     total_frames := total_frames self;
     fps := fps self;
     current_frame := current_frame self;
     playing := playing self;
     clips := clips self;
     clip_start := clip_start self;
     clip_end := Some frame |}.

(** ** Project files *)

Definition set_clips (v : pyval) (self : Analyzer) : Analyzer :=
  {| cap := cap self;
     video_path := video_path self;
     total_frames := total_frames self;
     fps := fps self;
     current_frame := current_frame self;
     playing := playing self;
     clips := v;
     clip_start := clip_start self;
     clip_end := clip_end self |}.

(** [save_data], [src/main.py] lines 258-282.  [path] is what the save dialog
    returned and [io] the exception, if any, that opening or writing the file
    raises.  The result is what the user is shown and the document that
    reached the file. *)
Definition save_data (path : string) (io : option exn) (self : Analyzer)
    : report * option pyval :=
  if decide (video_path self = "") then (Warning, None)
  else if decide (path = "") then (Silent, None)
  else
    let data := PDict [("video_path", PStr (video_path self));
                       ("clips", clips self)] in
    match io with
    | Some e => (Critical e, None)
    | None => (Information, Some data)
    end.

Section LoadData.

(** [self.update_clips_list()], which [load_data] calls, is defined in
    neither source file.  It is taken as a parameter: given the window, it
    either returns ([None]) or raises; it redraws the list widget and
    assigns no attribute of the model. *)
Variable update_clips_list : Analyzer → option exn.

(** [load_data], [src/main.py] lines 239-256.  [path] is what the open
    dialog returned and [file] what [open] and [json.load] gave: the parsed
    document or the exception they raised.  [data.get] exists on a
    dictionary only.  [self.clips] is assigned before the list is redrawn,
    and the handler does not undo it. *)
Definition load_data (path : string) (file : exn + pyval) (self : Analyzer)
    : report * Analyzer :=
  if decide (path = "") then (Silent, self)
  else
    match file with
    | inl e => (Critical e, self)
    | inr (PDict kv) =>
        let self' := set_clips (dict_get kv "clips" (PList [])) self in
        match update_clips_list self' with
        | None => (Information, self')
        | Some e => (Critical e, self')
        end
    | inr _ => (Critical AttributeError, self)
    end.

End LoadData.

(** A project as the spec has it: a video path and the clips. *)
Definition project_of (self : Analyzer) : string * pyval :=
  (video_path self, clips self).

(** ** Time codes *)

(** Qt's [QTime], from its documentation: a time of day, kept as the
    milliseconds since midnight, in [0, 86400000). *)
Record QTime := mkQTime { mds : Z }.

Definition MSECS_PER_DAY : Z := 86400000.

(** [QTime(h, m, s)] *)
Definition QTime_hms (h m s : Z) : QTime :=
  mkQTime ((h * 3600 + m * 60 + s) * 1000).

(** The range of a C [int]. *)
Definition INT_MIN : Z := (-2147483648)%Z.
Definition INT_MAX : Z := 2147483647%Z.

(** [t.addSecs(s)].  PyQt converts [s] to a C [int] and raises
    [OverflowError] ([None]) when it does not fit; Qt then moves the time,
    and "the time will wrap if it passes midnight". *)
Definition addSecs (t : QTime) (s : Z) : option QTime :=
  if (INT_MIN <=? s)%Z && (s <=? INT_MAX)%Z
  then Some (mkQTime ((mds t + s * 1000) mod MSECS_PER_DAY))
  else None.

(** A number in decimal with a leading zero below ten. *)
Definition zero_padded (n : Z) : string :=
  let d := pretty (Z.to_N n) in
  if (n <? 10)%Z then "0" +:+ d else d.

Definition hour (t : QTime) : Z := (mds t / 3600000)%Z.
Definition minute (t : QTime) : Z := ((mds t / 60000) mod 60)%Z.
Definition second (t : QTime) : Z := ((mds t / 1000) mod 60)%Z.

(** [t.toString("HH:mm:ss")] *)
Definition toString_HHmmss (t : QTime) : string :=
  zero_padded (hour t) +:+ ":" +:+ zero_padded (minute t) +:+ ":" +:+
  zero_padded (second t).

(** The rendering the spec words: zero-padded hours, minutes and seconds of a
    number of seconds, the hours not bounded. *)
Definition timecode_unbounded (seconds : Z) : string :=
  zero_padded (seconds / 3600) +:+ ":" +:+
  zero_padded ((seconds / 60) mod 60) +:+ ":" +:+
  zero_padded (seconds mod 60).


(** ** The playback cursor *)

Definition clamp (lo hi x : Z) : Z := Z.max lo (Z.min x hi).

(** Modelled from the spec: the slots [seek_video], [next_frame] and
    [prev_frame] that [setup_video_playback] connects are not in [src/]; the
    spec describes them as [seek(frame)], which sets [current_frame] clamped to
    [[0, total_frames]], and [advance_one_frame()] / [retreat_one_frame()],
    which move [current_frame] by one, clamped to the same interval. *)
Definition seek_video (frame : Z) (self : Analyzer) : Analyzer :=
  set_current_frame (clamp 0 (total_frames self) frame) self.

Definition next_frame (self : Analyzer) : Analyzer :=
  set_current_frame (clamp 0 (total_frames self) (current_frame self + 1)) self.

Definition prev_frame (self : Analyzer) : Analyzer :=
  set_current_frame (clamp 0 (total_frames self) (current_frame self - 1)) self.

Inductive cursor_call :=
  | Seek (frame : Z)
  | Advance
  | Retreat.

Definition cursor_step (self : Analyzer) (c : cursor_call) : Analyzer :=
  match c with
  | Seek frame => seek_video frame self
  | Advance => next_frame self
  | Retreat => prev_frame self
  end.

Definition cursor_run (cs : list cursor_call) (self : Analyzer) : Analyzer :=
  foldl cursor_step self cs.

Definition frame_in_range (self : Analyzer) : Prop :=
  (0 ≤ current_frame self ≤ total_frames self)%Z.

(** The state both managers are kept in by calls that pass no colour: same
    tags and shortcuts, a colour for exactly the registered tags, from the
    palette in [src/main.py] and the neutral one in [src/SiamakEditor.py]. *)
Definition agree_up_to_colors (m e : TagManager) : Prop :=
  tags m = tags e
  ∧ shortcuts m = shortcuts e
  ∧ (∀ n, n ∈ tags m →
       tag_colors e !! n = Some neutral_color
       ∧ ∃ c, tag_colors m !! n = Some c ∧ c ∈ available_colors)
  ∧ (∀ n, n ∉ tags m → tag_colors m !! n = None ∧ tag_colors e !! n = None).


(** ** Sessions used as concrete inputs *)

(** A 30 fps video of three minutes, opened and paused, with three clips. *)
Definition match_session : Analyzer :=
  {| cap := Some (mkCapture true 5400 30 0);
     video_path := "match.mp4";
     total_frames := 5400%Z;
     fps := 30%Q;
     current_frame := 0%Z;
     playing := false;
     clips := PList [ clip_dict 50 120 "Goal";
                      clip_dict 300 450 "SetPiece";
                      clip_dict 900 1000 "DefCorner" ];
     clip_start := None;
     clip_end := None |}.

(** A 25 fps video, paused at frame 100. *)
Definition paused_at_100 : Analyzer :=
  {| cap := Some (mkCapture true 3000 25 100);
     video_path := "first.mp4";
     total_frames := 3000%Z;
     fps := 25%Q;
     current_frame := 100%Z;
     playing := false;
     clips := PList [];
     clip_start := None;
     clip_end := None |}.

(** What [cv2.VideoCapture] opens for another file: 60 fps, 7200 frames. *)
Definition second_video : VideoCapture := mkCapture true 7200 60 0.

(** ** More of the tag manager's users *)

(** The first call of a sequence that names [n]. *)
Fixpoint first_call (n : string) (calls : list add_call) : option add_call :=
  match calls with
  | [] => None
  | c :: calls' =>
      if decide (call_name c = n) then Some c else first_call n calls'
  end.

(** The tag shortcuts [setup_shortcuts] binds, [src/main.py] lines 379-382:
    for each tag in order that has a (true) shortcut, the key sequence and
    the tag whose name the key puts in the tag input. *)
Definition tag_shortcut_bindings (tm : TagManager) : list (string * string) :=
  omap (λ tag, match truthy (get_shortcut tm tag) with
               | Some sc => Some (sc, tag)
               | None => None
               end)
       (get_tags tm).

(** The [change_tag_color] in effect in [src/SiamakEditor.py], lines 329-339.
    [selected_tag] is the attribute a pressed tag button sets; it does not
    exist before ([hasattr]).  [chosen] is what the colour dialog gave:
    [color.name()] when [color.isValid()], nothing when the dialog was
    cancelled. *)
Definition change_tag_color (selected_tag : option string)
    (chosen : option string) (tm : TagManager) : TagManager :=
  match selected_tag with
  | Some tag =>
      match chosen with
      | Some name =>
          {| tags := tags tm; shortcuts := shortcuts tm;
             tag_colors := <[tag := name]> (tag_colors tm) |}
      | None => tm
      end
  | None => tm
  end.

(** ** [lighter_color]

    Strings are sequences of characters with code points below 256. *)

(** The value of a hexadecimal digit. *)
Definition hex_value (c : ascii) : option Z :=
  let n := Z.of_N (N_of_ascii c) in
  if (48 <=? n)%Z && (n <=? 57)%Z then Some (n - 48)%Z
  else if (65 <=? n)%Z && (n <=? 70)%Z then Some (n - 55)%Z
  else if (97 <=? n)%Z && (n <=? 102)%Z then Some (n - 87)%Z
  else None.

(** The characters [int] skips around a number: tab to carriage return, the
    space, and of the code points from 128 on NEL and the no-break space. *)
Definition int_space (c : ascii) : bool :=
  let n := Z.of_N (N_of_ascii c) in
  ((9 <=? n)%Z && (n <=? 13)%Z) || (n =? 32)%Z || (n =? 133)%Z || (n =? 160)%Z.

(** [int(hex_color[i:i+2], 16)]: the slice has at most two characters.  Two
    digits are a number; so is one digit alone, after a sign or a skipped
    character, or before a skipped character; anything else, the empty slice
    included, raises [ValueError] ([None]). *)
Definition int_slice16 (hex_color : string) (i : nat) : option Z :=
  match String.list_ascii_of_string (String.substring i 2 hex_color) with
  | [c] => hex_value c
  | [c1; c2] =>
      match hex_value c1, hex_value c2 with
      | Some a, Some b => Some (16 * a + b)%Z
      | None, Some b =>
          if int_space c1 then Some b
          else if decide (c1 = "+"%char) then Some b
          else if decide (c1 = "-"%char) then Some (- b)%Z
          else None
      | Some a, None => if int_space c2 then Some a else None
      | None, None => None
      end
  | _ => None
  end.

(** The conversion of an [int] to a [float] in [int * float]; exact below
    2^53. *)
Definition float_of_int (z : Z) : float :=
  if (z <? 0)%Z then PrimFloat.opp (PrimFloat.of_uint63 (Uint63.of_Z (- z)))
  else PrimFloat.of_uint63 (Uint63.of_Z z).

(** [int(x)] of a [float]: truncation toward zero; it raises on an infinity
    and on a NaN ([None]). *)
Definition int_of_float (x : float) : option Z :=
  match Prim2SF x with
  | S754_zero _ => Some 0%Z
  | S754_finite s m e =>
      let a := if (0 <=? e)%Z then (Z.pos m * 2 ^ e)%Z
               else (Z.pos m / 2 ^ (- e))%Z in
      Some (if s then (- a)%Z else a)
  | S754_infinity _ => None
  | S754_nan => None
  end.

(** The default of [factor]: the double nearest to 0.3. *)
Definition default_factor : float := 0x1.3333333333333p-2%float.

(** [min(255, val + int((255 - val) * factor))] *)
Definition lighter_value (factor : float) (val : Z) : option Z :=
  d ← int_of_float (PrimFloat.mul (float_of_int (255 - val)) factor);
  Some (Z.min 255 (val + d)).

Definition upper_hex (c : ascii) : ascii :=
  let n := N_of_ascii c in
  if (97 <=? n)%N && (n <=? 102)%N then ascii_of_N (n - 32) else c.

Fixpoint map_string (f : ascii → ascii) (s : string) : string :=
  match s with
  | EmptyString => EmptyString
  | String c s' => String (f c) (map_string f s')
  end.

(** [f"{x:02X}"]: upper-case hexadecimal, filled with zeros to two
    characters, the sign counted. *)
Definition format_02X (x : Z) : string :=
  let digits :=
    map_string upper_hex (NilZero.string_of_uint (N.to_hex_uint (Z.abs_N x))) in
  if (x <? 0)%Z then "-" +:+ digits
  else if (String.length digits <? 2)%nat then "0" +:+ digits
  else digits.

(** [lighter_color], [src/main.py] lines 457-461 (and the same text in
    [src/SiamakEditor.py], lines 323-327).  [None] is an exception. *)
Definition lighter_color (hex_color : string) (factor : float)
    : option string :=
  r ← int_slice16 hex_color 1;
  g ← int_slice16 hex_color 3;
  b ← int_slice16 hex_color 5;
  r' ← lighter_value factor r;
  g' ← lighter_value factor g;
  b' ← lighter_value factor b;
  Some ("#" +:+ format_02X r' +:+ format_02X g' +:+ format_02X b').

(** The channel [lighter_color] computes, in integers: a step of three
    tenths of the way to 255, rounded down. *)
Definition lighten (val : Z) : Z := (val + (255 - val) * 3 / 10)%Z.

(** A colour name [#RRGGBB] from six hexadecimal digits. *)
Definition color_name (r1 r2 g1 g2 b1 b2 : ascii) : string :=
  String "#" (String r1 (String r2 (String g1 (String g2 (String b1
    (String b2 EmptyString)))))).

(** ** [frames_to_time] *)

(** [self.fps]: the [int] that [setup_video_playback] assigns, or the
    [float] that [cap.get(cv2.CAP_PROP_FPS)] returned. *)
Inductive number :=
  | PyInt (z : Z)
  | PyFloat (x : float).

(** [self.fps > 0]; false on a NaN. *)
Definition number_gt_0 (n : number) : bool :=
  match n with
  | PyInt z => (0 <? z)%Z
  | PyFloat x => PrimFloat.ltb PrimFloat.zero x
  end.

(** An [int] as an exact binary number, not yet rounded. *)
Definition exact_of_int (z : Z) : spec_float :=
  match z with
  | Z0 => S754_zero false
  | Zpos p => S754_finite false p 0
  | Zneg p => S754_finite true p 0
  end.

(** A rounded result as a [float]; Python raises [OverflowError] ([None])
    where the rounding gives an infinity. *)
Definition finite_float (x : spec_float) : option float :=
  match x with
  | S754_infinity _ => None
  | _ => Some (SF2Prim x)
  end.

(** [float(z)] of an [int] of any size: the nearest double, ties to even. *)
Definition float_of_long (z : Z) : option float :=
  finite_float (binary_normalize prec emax z 0 false).

(** [frames / self.fps] for a divisor that is not zero.  Of two [int] it is
    the exact quotient rounded once to the nearest double; with a [float]
    divisor the [int] is converted first and the division is the one of
    IEEE 754, which gives an infinity where it overflows. *)
Definition true_divide (a : Z) (b : number) : option float :=
  match b with
  | PyInt z => finite_float (SFdiv prec emax (exact_of_int a) (exact_of_int z))
  | PyFloat x => a' ← float_of_long a; Some (PrimFloat.div a' x)
  end.

(** [frames_to_time], [src/main.py] lines 308-311, given the value of
    [self.fps].  [None] is an exception: [OverflowError] from the
    conversion of [frames], from the division, from [int] of an infinity or
    from [addSecs]. *)
Definition frames_to_time (fps : number) (frames : Z) : option string :=
  seconds ← (if number_gt_0 fps
             then q ← true_divide frames fps; int_of_float q
             else Some 0%Z);
  t ← addSecs (QTime_hms 0 0 0) seconds;
  Some (toString_HHmmss t).



(** The text [update_frame] puts in the time label, [src/main.py] lines
    327-329. *)
Definition time_label (fps : number) (self : Analyzer) : option string :=
  current_time ← frames_to_time fps (current_frame self);
  total_time ← frames_to_time fps (total_frames self);
  Some (current_time +:+ " / " +:+ total_time).

(** ** Invariants and readings used in the statements *)

(** What every manager built by [add_tag] satisfies: no tag twice, a colour
    for exactly the tags, shortcuts for tags only and never empty. *)
Definition registry_wf (tm : TagManager) : Prop :=
  NoDup (tags tm)
  ∧ (∀ n, is_Some (tag_colors tm !! n) ↔ n ∈ tags tm)
  ∧ (∀ n, is_Some (shortcuts tm !! n) → n ∈ tags tm)
  ∧ (∀ n sc, shortcuts tm !! n = Some sc → sc ≠ "").

(** The shortcut and the colour a call passes, as Python tests them. *)
Definition given_shortcut (c : add_call) : option string :=
  truthy (call_shortcut c).
Definition given_color (c : add_call) : option string :=
  truthy (call_color c).

(** The three channels [lighter_color] reads from a colour name. *)
Definition channels (hex_color : string) : option (Z * Z * Z) :=
  r ← int_slice16 hex_color 1;
  g ← int_slice16 hex_color 3;
  b ← int_slice16 hex_color 5;
  Some (r, g, b).

(** The two hexadecimal digits of a two-character string. *)
Definition two_hex_digits (s : string) : option (Z * Z) :=
  match s with
  | String d1 (String d2 EmptyString) =>
      a ← hex_value d1; b ← hex_value d2; Some (a, b)
  | _ => None
  end.

(** * Properties *)

(** ** The tag manager *)

Lemma first_occurrences_elem (l : list string) (x : string) :
  x ∈ first_occurrences l ↔ x ∈ l.
Proof.
  induction l as [|y l IH]; simpl; [done|].
  rewrite !elem_of_cons, list_elem_of_filter, IH.
  destruct (decide (x = y)); tauto.
Qed.

Lemma first_occurrences_NoDup (l : list string) : NoDup (first_occurrences l).
Proof.
  induction l as [|y l IH]; simpl; [constructor|].
  apply NoDup_cons. split.
  - rewrite list_elem_of_filter. tauto.
  - by apply NoDup_filter.
Qed.

Lemma filter_not_in_nil (l : list string) : filter (λ y, y ∉ @nil string) l = l.
Proof.
  induction l as [|x l IH]; [done|].
  rewrite filter_cons_True; [by rewrite IH|]. apply not_elem_of_nil.
Qed.

Lemma palette_subscript (n : nat) :
  subscript available_colors (n mod length available_colors)
  = Some (MainPy.palette_color n).
Proof.
  unfold MainPy.palette_color.
  destruct (subscript available_colors (n mod length available_colors))
    as [c|] eqn:E; [done|].
  apply lookup_ge_None in E.
  pose proof (Nat.mod_upper_bound n (length available_colors)) as Hlt.
  simpl in *. lia.
Qed.

Lemma palette_color_elem (n : nat) : MainPy.palette_color n ∈ available_colors.
Proof.
  apply list_elem_of_lookup. eexists. apply palette_subscript.
Qed.

Lemma neutral_not_in_palette : neutral_color ∉ available_colors.
Proof. apply (bool_decide_unpack _). by vm_compute. Qed.

(** What the two [add_tag] have in common is proved once, for any function
    that behaves like them on the tag list and on the two dictionaries. *)
Section AddTag.

Variable add : TagManager → string → option string → option string → TagManager.

Hypothesis add_present : ∀ tm tag sc col, tag ∈ tags tm → add tm tag sc col = tm.
Hypothesis add_fresh_tags : ∀ tm tag sc col,
  tag ∉ tags tm → tags (add tm tag sc col) = tags tm ++ [tag].
Hypothesis add_fresh_shortcuts : ∀ tm tag sc col,
  tag ∉ tags tm →
  shortcuts (add tm tag sc col)
  = match truthy sc with
    | Some s => <[tag := s]> (shortcuts tm)
    | None => shortcuts tm
    end.
Hypothesis add_fresh_colors : ∀ tm tag sc col n,
  tag ∉ tags tm → n ≠ tag →
  tag_colors (add tm tag sc col) !! n = tag_colors tm !! n.

Lemma run_tags (calls : list add_call) (tm : TagManager) :
  tags (run_with add calls tm)
  = tags tm ++ filter (λ y, y ∉ tags tm) (first_occurrences (call_name <$> calls)).
Proof.
  unfold run_with.
  revert tm. induction calls as [|c calls IH]; intros tm; simpl.
  - by rewrite app_nil_r.
  - rewrite IH.
    destruct (decide (call_name c ∈ tags tm)) as [Hin|Hnin].
    + replace (call_step add tm c) with tm by (symmetry; by apply add_present).
      rewrite filter_cons_False by tauto.
      f_equal. rewrite list_filter_filter_l; [done|]. congruence.
    + replace (tags (call_step add tm c)) with (tags tm ++ [call_name c])
        by (symmetry; by apply add_fresh_tags).
      rewrite filter_cons_True by done.
      rewrite <- app_assoc. simpl. do 2 f_equal.
      rewrite list_filter_filter. apply list_filter_iff.
      intros y. rewrite not_elem_of_app, list_elem_of_singleton. tauto.
Qed.

Lemma run_keeps (calls : list add_call) (tm : TagManager) (n : string) :
  n ∈ tags tm →
  n ∈ tags (run_with add calls tm)
  ∧ shortcuts (run_with add calls tm) !! n = shortcuts tm !! n
  ∧ tag_colors (run_with add calls tm) !! n = tag_colors tm !! n.
Proof.
  unfold run_with.
  revert tm. induction calls as [|c calls IH]; intros tm Hn; simpl; [done|].
  assert (n ∈ tags (call_step add tm c)
          ∧ shortcuts (call_step add tm c) !! n = shortcuts tm !! n
          ∧ tag_colors (call_step add tm c) !! n = tag_colors tm !! n) as (H1 & H2 & H3).
  { unfold call_step. destruct (decide (call_name c ∈ tags tm)) as [Hin|Hnin].
    - by rewrite add_present.
    - assert (n ≠ call_name c) by congruence.
      rewrite add_fresh_tags, add_fresh_shortcuts, add_fresh_colors by done.
      split_and!; [apply elem_of_app; by left| |done].
      destruct (truthy (call_shortcut c)); [|done].
      by rewrite lookup_insert_ne. }
  destruct (IH _ H1) as (? & ? & ?). split_and!; congruence.
Qed.

End AddTag.

Lemma main_add_present tm tag sc col :
  tag ∈ tags tm → MainPy.add_tag tm tag sc col = tm.
Proof. intros. unfold MainPy.add_tag. by rewrite decide_True. Qed.

Lemma editor_add_present tm tag sc col :
  tag ∈ tags tm → SiamakEditorPy.add_tag tm tag sc col = tm.
Proof. intros. unfold SiamakEditorPy.add_tag. by rewrite decide_True. Qed.

Lemma main_add_fresh tm tag sc col :
  tag ∉ tags tm →
  MainPy.add_tag tm tag sc col
  = {| tags := tags tm ++ [tag];
       shortcuts := match truthy sc with
                    | Some s => <[tag := s]> (shortcuts tm)
                    | None => shortcuts tm
                    end;
       tag_colors :=
         <[tag := match truthy col with
                  | Some c => c
                  | None => MainPy.palette_color (length (tags tm ++ [tag]))
                  end]> (tag_colors tm) |}.
Proof. intros. unfold MainPy.add_tag. by rewrite decide_False. Qed.

Lemma editor_add_fresh tm tag sc col :
  tag ∉ tags tm →
  SiamakEditorPy.add_tag tm tag sc col
  = {| tags := tags tm ++ [tag];
       shortcuts := match truthy sc with
                    | Some s => <[tag := s]> (shortcuts tm)
                    | None => shortcuts tm
                    end;
       tag_colors :=
         <[tag := match truthy col with
                  | Some c => c
                  | None => neutral_color
                  end]> (tag_colors tm) |}.
Proof. intros. unfold SiamakEditorPy.add_tag. by rewrite decide_False. Qed.

Lemma run_main_tags calls tm :
  tags (run_main calls tm)
  = tags tm ++ filter (λ y, y ∉ tags tm) (first_occurrences (call_name <$> calls)).
Proof.
  apply (run_tags MainPy.add_tag).
  - apply main_add_present.
  - intros. by rewrite main_add_fresh.
Qed.

Lemma run_main_keeps calls tm n :
  n ∈ tags tm →
  n ∈ tags (run_main calls tm)
  ∧ shortcuts (run_main calls tm) !! n = shortcuts tm !! n
  ∧ tag_colors (run_main calls tm) !! n = tag_colors tm !! n.
Proof.
  apply (run_keeps MainPy.add_tag).
  - apply main_add_present.
  - intros. by rewrite main_add_fresh.
  - intros. by rewrite main_add_fresh.
  - intros. rewrite main_add_fresh by done. simpl. by rewrite lookup_insert_ne.
Qed.

Lemma agree_step (m e : TagManager) (c : add_call) :
  truthy (call_color c) = None →
  agree_up_to_colors m e →
  agree_up_to_colors
    (MainPy.add_tag m (call_name c) (call_shortcut c) (call_color c))
    (SiamakEditorPy.add_tag e (call_name c) (call_shortcut c) (call_color c)).
Proof.
  intros Hcol (Ht & Hs & Hin & Hout).
  destruct (decide (call_name c ∈ tags m)) as [Hc|Hc].
  - rewrite main_add_present, editor_add_present by congruence.
    by split_and!.
  - rewrite main_add_fresh, editor_add_fresh by congruence.
    rewrite Hcol, <- Ht, <- Hs. split_and!; simpl; [done..| |].
    + intros n [Hn| ->%list_elem_of_singleton]%elem_of_app.
      * assert (n ≠ call_name c) by congruence.
        rewrite !lookup_insert_ne by done. by apply Hin.
      * rewrite !lookup_insert_eq. split; [done|].
        eexists. split; [done|]. apply palette_color_elem.
    + intros n [Hn Hne%not_elem_of_cons]%not_elem_of_app.
      rewrite !lookup_insert_ne by (destruct Hne; congruence). by apply Hout.
Qed.

Lemma agree_run (calls : list add_call) :
  Forall (λ c, truthy (call_color c) = None) calls →
  ∀ m e, agree_up_to_colors m e →
         agree_up_to_colors (run_main calls m) (run_editor calls e).
Proof.
  unfold run_main, run_editor, run_with.
  induction 1 as [|c calls Hc _ IH]; intros m e Hme; simpl; [done|].
  apply IH. by apply agree_step.
Qed.

Lemma agree_new : agree_up_to_colors new_TagManager new_TagManager.
Proof.
  split_and!; simpl; [done..| |].
  - intros n Hn. by apply elem_of_nil in Hn.
  - intros n _. by rewrite lookup_empty.
Qed.

(** **** Claim C4 *)

(** C4.  For every sequence of [add_tag] calls on a fresh manager,
    [get_tags] is the list of the distinct names, each once, in the order of
    their first call; a call whose name is already registered returns the
    manager unchanged; and whatever calls follow, a registered name keeps its
    place, its shortcut and its colour. *)
Theorem get_tags_first_insertion_order (calls : list add_call) :
  let tm := run_main calls new_TagManager in
  get_tags tm = first_occurrences (call_name <$> calls)
  ∧ NoDup (get_tags tm)
  ∧ (∀ n, n ∈ get_tags tm ↔ n ∈ call_name <$> calls)
  ∧ (∀ tag sc col, tag ∈ get_tags tm → MainPy.add_tag tm tag sc col = tm)
  ∧ (∀ more n, n ∈ get_tags tm →
       get_tags tm `prefix_of` get_tags (run_main more tm)
       ∧ get_shortcut (run_main more tm) n = get_shortcut tm n
       ∧ get_tag_color (run_main more tm) n = get_tag_color tm n).
Proof.
  intros tm.
  assert (get_tags tm = first_occurrences (call_name <$> calls)) as Htags.
  { unfold tm, get_tags. rewrite run_main_tags. simpl.
    apply filter_not_in_nil. }
  split_and!.
  - done.
  - rewrite Htags. apply first_occurrences_NoDup.
  - intros n. rewrite Htags. apply first_occurrences_elem.
  - intros tag sc col Hin. by apply main_add_present.
  - intros more n Hn. unfold get_tags, get_shortcut, get_tag_color in *.
    destruct (run_main_keeps more tm n Hn) as (_ & Hs & Hc).
    rewrite Hs, Hc. split_and!; [|done..].
    rewrite run_main_tags. by apply prefix_app_r.
Qed.

Lemma get_tags_first_insertion_order_witness :
  let again := mkCall "Goal" (Some "Ctrl+9") (Some "#000000") in
  let tm := run_main (default_tags ++ [again]) new_TagManager in
  get_tags tm = ["DefCorner"; "TraAttToDef"; "CounterAttack"; "SetPiece"; "Goal"]
  ∧ MainPy.add_tag tm "Goal" None None = tm
  ∧ get_shortcut (run_main [again] tm) "Goal" = Some "Ctrl+5".
Proof.
  intros again tm.
  destruct (get_tags_first_insertion_order (default_tags ++ [again]))
    as (Ht & _ & _ & Hnoop & Hkeep).
  fold tm in Ht, Hnoop, Hkeep.
  assert ("Goal" ∈ get_tags tm) as Hin.
  { rewrite Ht. apply (bool_decide_unpack _). vm_compute. exact I. }
  split_and!.
  - rewrite Ht. reflexivity.
  - apply Hnoop, Hin.
  - destruct (Hkeep [again] "Goal" Hin) as (_ & Hs & _).
    rewrite Hs. apply (bool_decide_unpack _). vm_compute. exact I.
Defined.

(** **** Claim C5 *)

(** C5 (as amended).  When [add_tag] registers a new tag with no colour,
    [src/main.py] gives it the palette entry whose index is the tag count
    with the new tag already counted (the previous count plus one), modulo
    the palette size; that subscript is in range for any number of tags.
    [src/SiamakEditor.py] gives it the neutral colour, which is no palette
    entry. *)
Theorem new_tag_color (tm : TagManager) (tag : string)
    (sc col : option string) :
  tag ∉ tags tm →
  truthy col = None →
  let count := length (tags (MainPy.add_tag tm tag sc col)) in
  count = S (length (tags tm))
  ∧ tag_colors (MainPy.add_tag tm tag sc col) !! tag
    = subscript available_colors (count mod length available_colors)
  ∧ is_Some (subscript available_colors (count mod length available_colors))
  ∧ get_tag_color (MainPy.add_tag tm tag sc col) tag ∈ available_colors
  ∧ tag_colors (SiamakEditorPy.add_tag tm tag sc col) !! tag
    = Some neutral_color
  ∧ neutral_color ∉ available_colors.
Proof.
  intros Hfresh Hcol count. unfold count, get_tag_color.
  rewrite main_add_fresh, editor_add_fresh by done. cbn [tags tag_colors].
  rewrite Hcol, !lookup_insert_eq, palette_subscript, length_app.
  split_and!; [simpl; lia|done|by eexists|apply palette_color_elem|done|].
  apply neutral_not_in_palette.
Qed.

Lemma new_tag_color_witness :
  tag_colors (MainPy.add_tag (run_main default_tags new_TagManager)
                             "Foul" None None) !! "Foul"
  = subscript available_colors 6.
Proof.
  destruct (new_tag_color (run_main default_tags new_TagManager)
                          "Foul" None None) as (_ & H & _).
  - apply (bool_decide_unpack _). vm_compute. exact I.
  - reflexivity.
  - rewrite H. reflexivity.
Defined.

(** The claim as worded fails on both files: the editor's first tag gets a
    colour that is not in the palette, and the first tag of [src/main.py]
    gets the entry at index 1, not the entry at the count of tags there were
    when [add_tag] was called (0). *)
Lemma new_tag_color_counterexample :
  get_tag_color (SiamakEditorPy.add_tag new_TagManager "Goal" None None) "Goal"
  = "#DDDDDD"
  ∧ (neutral_color ∉ available_colors)
  ∧ tag_colors (MainPy.add_tag new_TagManager "Goal" None None) !! "Goal"
    = available_colors !! 1
  ∧ tag_colors (MainPy.add_tag new_TagManager "Goal" None None) !! "Goal"
    ≠ available_colors !! (length (tags new_TagManager)
                           mod length available_colors).
Proof.
  split_and!.
  - reflexivity.
  - apply neutral_not_in_palette.
  - reflexivity.
  - apply (bool_decide_unpack _). vm_compute. exact I.
Qed.

(** **** Claim C10 *)

(** C10 (as amended).  For every sequence of [add_tag] calls that pass no
    colour, the managers of [src/main.py] and [src/SiamakEditor.py] end with
    the same tag list, the same shortcuts and colours for the same tags; the
    colours themselves differ for every tag: a palette entry in
    [src/main.py], the neutral colour in [src/SiamakEditor.py]. *)
Theorem tag_managers_differ_in_colors_only (calls : list add_call) :
  Forall (λ c, truthy (call_color c) = None) calls →
  let m := run_main calls new_TagManager in
  let e := run_editor calls new_TagManager in
  get_tags m = get_tags e
  ∧ shortcuts m = shortcuts e
  ∧ dom (tag_colors m) = dom (tag_colors e)
  ∧ ∀ n, n ∈ get_tags m →
         get_tag_color e n = neutral_color
         ∧ get_tag_color m n ∈ available_colors
         ∧ get_tag_color m n ≠ get_tag_color e n.
Proof.
  intros Hcalls m e.
  destruct (agree_run calls Hcalls _ _ agree_new) as (Ht & Hs & Hin & Hout).
  fold m e in Ht, Hs, Hin, Hout. unfold get_tags, get_tag_color.
  split_and!; [done..| |].
  - apply set_eq. intros n. rewrite !elem_of_dom.
    destruct (decide (n ∈ tags m)) as [Hn|Hn].
    + destruct (Hin n Hn) as (-> & c & -> & _). split; by eexists.
    + destruct (Hout n Hn) as (-> & ->). done.
  - intros n Hn. destruct (Hin n Hn) as (-> & c & -> & Hc). simpl.
    split_and!; [done..|]. intros ->. by apply neutral_not_in_palette.
Qed.

Lemma tag_managers_differ_in_colors_only_witness :
  get_tags (run_main default_tags new_TagManager)
  = get_tags (run_editor default_tags new_TagManager)
  ∧ shortcuts (run_main default_tags new_TagManager)
    = shortcuts (run_editor default_tags new_TagManager).
Proof.
  destruct (tag_managers_differ_in_colors_only default_tags) as (H1 & H2 & _).
  - repeat constructor.
  - split; [exact H1 | exact H2].
Defined.

(** The two managers give the first default tag different colours. *)
Lemma tag_managers_counterexample :
  Forall (λ c, call_color c = None) default_tags
  ∧ get_tag_color (run_main default_tags new_TagManager) "DefCorner" = "#99FF99"
  ∧ get_tag_color (run_editor default_tags new_TagManager) "DefCorner" = "#DDDDDD"
  ∧ tag_colors (run_main default_tags new_TagManager)
    ≠ tag_colors (run_editor default_tags new_TagManager).
Proof.
  split_and!.
  - repeat constructor.
  - reflexivity.
  - reflexivity.
  - intros H. apply (f_equal (λ m : gmap string string, m !! "DefCorner")) in H.
    vm_compute in H. discriminate H.
Qed.

(** ** Clips *)

Local Open Scope Z_scope.

Lemma add_clip_marker_missing (tag : string) (self : Analyzer) :
  clip_start self = None ∨ clip_end self = None → add_clip tag self = Returned self.
Proof.
  unfold add_clip. intros [-> | ->]; [done|]. by destruct (clip_start self).
Qed.

Lemma add_clip_empty_tag (self : Analyzer) : add_clip "" self = Returned self.
Proof.
  unfold add_clip. by destruct (clip_start self), (clip_end self).
Qed.

Lemma add_clip_raised (tag : string) (self self' : Analyzer) (e : exn) :
  add_clip tag self = Raised e self' → self' = self ∧ e = AttributeError.
Proof.
  unfold add_clip. intros H.
  destruct (clip_start self), (clip_end self); try discriminate.
  destruct (decide (tag = "")); try discriminate.
  destruct (clips self); by inversion H.
Qed.

(** **** Claim C1 *)

(** C1 (as amended).  [add_clip] has no validation error: when a pending
    marker is missing or the tag text is empty it returns normally and the
    window is exactly as before; when both markers are set and the text is
    not empty it appends [{start, end, tag}] with the two frames as they were
    set, not swapped even when the end is before the start, and removes both
    markers; and a call an exception leaves has changed nothing. *)
Theorem add_clip_no_validation_error (tag : string) (self : Analyzer) :
  (clip_start self = None ∨ clip_end self = None ∨ tag = "" →
   add_clip tag self = Returned self)
  ∧ (∀ a b l,
       clip_start self = Some a → clip_end self = Some b → tag ≠ "" →
       clips self = PList l →
       ∃ self',
         add_clip tag self = Returned self'
         ∧ clips self' = PList (l ++ [clip_dict a b tag])
         ∧ clip_start self' = None ∧ clip_end self' = None
         ∧ project_of self' = (video_path self, clips self')
         ∧ (total_frames self', fps self', current_frame self', playing self')
           = (total_frames self, fps self, current_frame self, playing self))
  ∧ (∀ e self', add_clip tag self = Raised e self' → self' = self).
Proof.
  split_and!.
  - intros [H | [H | ->]].
    + apply add_clip_marker_missing. by left.
    + apply add_clip_marker_missing. by right.
    + apply add_clip_empty_tag.
  - intros a b l Ha Hb Htag Hl. unfold add_clip.
    rewrite Ha, Hb, Hl, decide_False by done.
    eexists. split; [reflexivity|]. by split_and!.
  - intros e self' H. by apply add_clip_raised in H as [-> _].
Qed.

Lemma add_clip_no_validation_error_witness :
  add_clip "Goal" setup_video_playback = Returned setup_video_playback
  ∧ ∃ self',
      add_clip "Goal" (set_clip_end 50 (set_clip_start 120 setup_video_playback))
      = Returned self'
      ∧ clips self' = PList [clip_dict 120 50 "Goal"].
Proof.
  split.
  - apply (add_clip_no_validation_error "Goal" setup_video_playback).
    left. reflexivity.
  - destruct (add_clip_no_validation_error "Goal"
                (set_clip_end 50 (set_clip_start 120 setup_video_playback)))
      as (_ & H & _).
    destruct (H 120 50 []) as (self' & H1 & H2 & _);
      [reflexivity | reflexivity | discriminate | reflexivity |].
    exists self'. split; [exact H1 | exact H2].
Defined.

(** With the end marker before the start marker the clip is stored as it was
    marked, start 120 and end 50; and without markers, or with an empty text,
    the call returns and nothing is raised. *)
Lemma add_clip_counterexample :
  let marked :=
    {| cap := None; video_path := ""; total_frames := 0; fps := 30%Q;
       current_frame := 0; playing := false; clips := PList [];
       clip_start := Some 120; clip_end := Some 50 |} in
  (∃ self', add_clip "Goal" marked = Returned self'
            ∧ clips self' = PList [clip_dict 120 50 "Goal"]
            ∧ clips self' ≠ PList [clip_dict 50 120 "Goal"])
  ∧ add_clip "" marked = Returned marked
  ∧ add_clip "Goal" setup_video_playback = Returned setup_video_playback.
Proof.
  intros marked. split_and!; [|reflexivity..].
  eexists. split; [reflexivity|]. split; [reflexivity|]. discriminate.
Qed.

(** **** Claim C8 *)

(** C8 (as amended).  After the start marker is set to 50 and the end marker
    to 120, [add_clip] with the text "Goal" appends
    [{start: 50, end: 120, tag: "Goal"}] at the end of the clip list and
    removes both markers; an [add_clip] that follows at once, with any text,
    returns normally, raises nothing and leaves the window, its clip list
    included, as it is. *)
Theorem add_clip_goal_then_again (self : Analyzer) (l : list pyval) :
  clips self = PList l →
  ∃ self',
    add_clip "Goal" (set_clip_end 120 (set_clip_start 50 self)) = Returned self'
    ∧ clips self' = PList (l ++ [clip_dict 50 120 "Goal"])
    ∧ clip_start self' = None ∧ clip_end self' = None
    ∧ ∀ tag, add_clip tag self' = Returned self'.
Proof.
  intros Hl. unfold add_clip at 1. simpl. rewrite Hl.
  eexists. split; [reflexivity|]. split_and!; [done..|].
  intros tag. apply add_clip_marker_missing. by left.
Qed.

Lemma add_clip_goal_then_again_witness :
  ∃ self',
    add_clip "Goal" (set_clip_end 120 (set_clip_start 50 setup_video_playback))
    = Returned self'
    ∧ clips self' = PList [clip_dict 50 120 "Goal"]
    ∧ add_clip "Goal" self' = Returned self'.
Proof.
  destruct (add_clip_goal_then_again setup_video_playback [])
    as (self' & H1 & H2 & _ & _ & H3); [reflexivity|].
  exists self'. split_and!; [exact H1 | exact H2 | exact (H3 "Goal")].
Defined.

(** The commit that follows returns; no exception of any kind leaves it. *)
Lemma add_clip_goal_then_again_counterexample :
  ∃ self',
    add_clip "Goal" (set_clip_end 120 (set_clip_start 50 setup_video_playback))
    = Returned self'
    ∧ add_clip "Goal" self' = Returned self'
    ∧ ∀ e self'', add_clip "Goal" self' ≠ Raised e self''.
Proof.
  eexists. split; [reflexivity|]. split; [reflexivity|]. discriminate.
Qed.

(** ** Project files *)

Lemma dict_get_missing (kv : list (string * pyval)) (key : string) (d : pyval) :
  dict_has kv key = false → dict_get kv key d = d.
Proof.
  unfold dict_has. intros H%bool_decide_eq_false.
  induction kv as [|[k v] kv IH]; simpl; [done|].
  apply not_elem_of_cons in H as [Hne H]. simpl in Hne.
  rewrite decide_False by congruence. by apply IH.
Qed.

Lemma load_data_dict ucl (path : string) kv (self : Analyzer) :
  path ≠ "" →
  load_data ucl path (inr (PDict kv)) self
  = (match ucl (set_clips (dict_get kv "clips" (PList [])) self) with
     | None => Information
     | Some e => Critical e
     end,
     set_clips (dict_get kv "clips" (PList [])) self).
Proof.
  intros Hp. unfold load_data. rewrite decide_False by done.
  by destruct (ucl _).
Qed.

Lemma load_data_video_path ucl (path : string) file (self : Analyzer) :
  video_path (load_data ucl path file self).2 = video_path self.
Proof.
  unfold load_data. destruct (decide (path = "")); [done|].
  destruct file as [e|[]]; try done. by destruct (ucl _).
Qed.

(** **** Claim C2 *)

(** C2 (as amended).  A window with a video path writes the document
    [{video_path, clips}]; loading that document into any window gives that
    window the saved clip list exactly, and leaves its [video_path] as it
    was: the path in the document is not read.  The load reports success when
    the list refresh does not raise.  A window without a video path writes
    no document. *)
Theorem save_then_load_restores_clips
    (update_clips_list : Analyzer → option exn)
    (p self : Analyzer) (path path' : string) :
  path ≠ "" → path' ≠ "" →
  (video_path p = "" → save_data path None p = (Warning, None))
  ∧ (video_path p ≠ "" →
     ∃ doc,
       save_data path None p = (Information, Some doc)
       ∧ doc = PDict [("video_path", PStr (video_path p)); ("clips", clips p)]
       ∧ clips (load_data update_clips_list path' (inr doc) self).2 = clips p
       ∧ video_path (load_data update_clips_list path' (inr doc) self).2
         = video_path self
       ∧ (update_clips_list (set_clips (clips p) self) = None →
          load_data update_clips_list path' (inr doc) self
          = (Information, set_clips (clips p) self))).
Proof.
  intros Hpath Hpath'. split.
  - intros Hv. unfold save_data. by rewrite decide_True.
  - intros Hv. eexists. split_and!.
    + unfold save_data. by rewrite !decide_False.
    + done.
    + by rewrite load_data_dict.
    + apply load_data_video_path.
    + intros Hok. rewrite load_data_dict by done. simpl. by rewrite Hok.
Qed.

Lemma save_then_load_restores_clips_witness :
  ∃ doc,
    save_data "match.json" None match_session = (Information, Some doc)
    ∧ load_data (λ _, None) "match.json" (inr doc) setup_video_playback
      = (Information, set_clips (clips match_session) setup_video_playback).
Proof.
  destruct (save_then_load_restores_clips (λ _, None) match_session
              setup_video_playback "match.json" "match.json")
    as [_ H]; [discriminate | discriminate |].
  destruct H as (doc & H1 & _ & _ & _ & H2); [discriminate|].
  exists doc. split; [exact H1 | apply H2; reflexivity].
Defined.

(** The project with path "match.mp4" and three clips, saved and then loaded
    in a fresh window: the clips come back, the path does not, whatever the
    list refresh does. *)
Lemma save_then_load_counterexample :
  ∃ doc,
    save_data "match.json" None match_session = (Information, Some doc)
    ∧ load_data (λ _, None) "match.json" (inr doc) setup_video_playback
      = (Information, set_clips (clips match_session) setup_video_playback)
    ∧ (∀ ucl,
         project_of (load_data ucl "match.json" (inr doc) setup_video_playback).2
         = ("", clips match_session))
    ∧ project_of match_session = ("match.mp4", clips match_session)
    ∧ (∀ ucl,
         project_of (load_data ucl "match.json" (inr doc) setup_video_playback).2
         ≠ project_of match_session).
Proof.
  eexists. split; [reflexivity|]. split; [reflexivity|].
  assert (∀ ucl,
    project_of (load_data ucl "match.json"
      (inr (PDict [("video_path", PStr (video_path match_session));
                   ("clips", clips match_session)])) setup_video_playback).2
    = ("", clips match_session)) as H.
  { intros ucl. rewrite load_data_dict by discriminate. reflexivity. }
  split; [exact H|]. split; [reflexivity|].
  intros ucl. rewrite H. discriminate.
Qed.

(** **** Claim C6 *)

(** C6 (as amended).  [load_data] reports a failure and changes nothing when
    the document is not an object.  For an object it checks nothing: whatever
    is under [clips], or the empty list when the key is missing, becomes the
    clip list as it is, and the load reports success unless the list refresh
    raises; [video_path] is not read from the document and stays what it
    was. *)
Theorem load_data_checks_nothing
    (update_clips_list : Analyzer → option exn)
    (path : string) (self : Analyzer) :
  path ≠ "" →
  (∀ data, (∀ kv, data ≠ PDict kv) →
     load_data update_clips_list path (inr data) self
     = (Critical AttributeError, self))
  ∧ (∀ kv,
       let self' := set_clips (dict_get kv "clips" (PList [])) self in
       load_data update_clips_list path (inr (PDict kv)) self
       = (match update_clips_list self' with
          | None => Information
          | Some e => Critical e
          end, self'))
  ∧ (∀ kv, dict_has kv "clips" = false →
       clips (load_data update_clips_list path (inr (PDict kv)) self).2
       = PList [])
  ∧ (∀ file,
       video_path (load_data update_clips_list path file self).2
       = video_path self).
Proof.
  intros Hpath. split_and!.
  - intros data Hdata. unfold load_data. rewrite decide_False by done.
    destruct data; try done. by destruct (Hdata kv).
  - intros kv. by apply load_data_dict.
  - intros kv Hkv. rewrite load_data_dict by done. simpl.
    by apply dict_get_missing.
  - intros file. apply load_data_video_path.
Qed.

Lemma load_data_checks_nothing_witness :
  load_data (λ _, None) "x.json" (inr (PDict [("video_path", PStr "x.mp4")]))
            setup_video_playback
  = (Information, setup_video_playback)
  ∧ load_data (λ _, None) "x.json" (inr (PList [])) match_session
    = (Critical AttributeError, match_session).
Proof.
  split.
  - destruct (load_data_checks_nothing (λ _, None) "x.json" setup_video_playback)
      as (_ & H & _); [discriminate|].
    rewrite H. reflexivity.
  - destruct (load_data_checks_nothing (λ _, None) "x.json" match_session)
      as (H & _); [discriminate|].
    apply H. discriminate.
Defined.

(** In a window that has "match.mp4" open, a document without [video_path]
    leaves the path "match.mp4", not the empty string, and a [clips] field
    that is the number 42 becomes the clip list; the load of it is reported
    as a success when the list refresh does not raise. *)
Lemma load_data_counterexample :
  (∀ ucl,
     video_path (load_data ucl "x.json" (inr (PDict [("clips", PList [])]))
                           match_session).2
     = "match.mp4")
  ∧ (∀ ucl,
       clips (load_data ucl "x.json" (inr (PDict [("clips", PInt 42)]))
                        match_session).2
       = PInt 42)
  ∧ load_data (λ _, None) "x.json" (inr (PDict [("clips", PInt 42)]))
              match_session
    = (Information, set_clips (PInt 42) match_session).
Proof.
  split_and!.
  - intros ucl. by rewrite load_data_video_path.
  - intros ucl. by rewrite load_data_dict.
  - reflexivity.
Qed.

(** ** Time codes *)

Lemma toString_of_seconds (s : Z) :
  toString_HHmmss (mkQTime ((mds (QTime_hms 0 0 0) + s * 1000) mod MSECS_PER_DAY))
  = timecode_unbounded (s mod 86400).
Proof.
  unfold toString_HHmmss, timecode_unbounded, hour, minute, second,
    QTime_hms, MSECS_PER_DAY. simpl mds.
  replace ((0 * 3600 + 0 * 60 + 0) * 1000 + s * 1000) with (s * 1000) by lia.
  change 86400000 with (86400 * 1000).
  rewrite Z.mul_mod_distr_r by lia.
  change 3600000 with (3600 * 1000). change 60000 with (60 * 1000).
  rewrite !Z.div_mul_cancel_r by lia.
  by rewrite Z.div_mul by lia.
Qed.

(** A [QTime] shows the seconds it was moved by, modulo one day, when they
    fit a C [int]; otherwise [addSecs] raises. *)
Lemma toString_addSecs (s : Z) :
  toString_HHmmss <$> addSecs (QTime_hms 0 0 0) s
  = if (INT_MIN <=? s) && (s <=? INT_MAX)
    then Some (timecode_unbounded (s mod 86400))
    else None.
Proof.
  unfold addSecs. destruct ((INT_MIN <=? s) && (s <=? INT_MAX)); [|done].
  simpl. by rewrite toString_of_seconds.
Qed.

Lemma frames_to_time_of_seconds (fps : number) (frames : Z) :
  frames_to_time fps frames
  = (if number_gt_0 fps
     then q ← true_divide frames fps; int_of_float q
     else Some 0)
    ≫= λ s, if (INT_MIN <=? s) && (s <=? INT_MAX)
            then Some (timecode_unbounded (s mod 86400))
            else None.
Proof.
  unfold frames_to_time.
  destruct (if number_gt_0 fps then _ else _) as [s|]; simpl; [|done].
  rewrite <- toString_addSecs. by destruct (addSecs _ s).
Qed.

Lemma in_int_range (s : Z) :
  (INT_MIN <=? s) && (s <=? INT_MAX) = true ↔ INT_MIN ≤ s ≤ INT_MAX.
Proof. rewrite andb_true_iff, !Z.leb_le. tauto. Qed.




(** ** Resetting the playback state *)

Lemma new_project_keeps_fps (self : Analyzer) :
  fps (new_project self) = fps self.
Proof. reflexivity. Qed.

Lemma open_video_paused (path : string) (video : VideoCapture)
    (self : Analyzer) :
  path ≠ "" → playing self = false →
  open_video path video self = attach_video path video self.
Proof.
  intros Hp Hpl. unfold open_video, update_frame. rewrite decide_False by done.
  simpl. by rewrite Hpl.
Qed.

Lemma open_video_shadowed_paused (path : string) (video : VideoCapture)
    (self : Analyzer) :
  path ≠ "" → playing self = false →
  current_frame (open_video_shadowed path video self) = 0.
Proof.
  intros Hp Hpl. unfold open_video_shadowed, update_frame.
  rewrite decide_False by done. simpl. by rewrite Hpl.
Qed.

(** **** Claim C7 *)

(** C7.  The claim asks that [new_project] and [open_video] leave
    [total_frames], [fps], [current_frame] and [playing] at their initial
    values.  On a window that shows a 25 fps video paused at frame 100,
    [new_project] resets [total_frames], [current_frame] and [playing] but
    keeps [fps] at 25, where a fresh window has 30; and [open_video] of a
    second file takes [total_frames] and [fps] from that file but keeps
    [current_frame] at 100, where the definition of [open_video] it shadows
    sets 0. *)
Theorem reset_keeps_fps_and_frame :
  (total_frames (new_project paused_at_100),
   current_frame (new_project paused_at_100),
   playing (new_project paused_at_100)) = (0, 0, false)
  ∧ fps (new_project paused_at_100) = 25%Q
  ∧ fps setup_video_playback = 30%Q
  ∧ (total_frames (open_video "second.mp4" second_video paused_at_100),
     fps (open_video "second.mp4" second_video paused_at_100))
    = (7200, 60%Q)
  ∧ current_frame (open_video "second.mp4" second_video paused_at_100) = 100
  ∧ current_frame (open_video_shadowed "second.mp4" second_video paused_at_100)
    = 0.
Proof. by vm_compute. Qed.

(** ** The playback cursor *)

Lemma clamp_in_range (hi x : Z) : 0 ≤ hi → 0 ≤ clamp 0 hi x ≤ hi.
Proof. unfold clamp. lia. Qed.

Lemma cursor_step_total (self : Analyzer) (c : cursor_call) :
  total_frames (cursor_step self c) = total_frames self.
Proof. by destruct c. Qed.

Lemma cursor_step_in_range (self : Analyzer) (c : cursor_call) :
  0 ≤ total_frames self → frame_in_range (cursor_step self c).
Proof.
  intros Ht. unfold frame_in_range. rewrite cursor_step_total.
  destruct c; simpl; by apply clamp_in_range.
Qed.

(** **** Claim C9 *)

(** C9.  Whatever sequence of [seek], [advance_one_frame] and
    [retreat_one_frame] calls is made on a window whose frame count is not
    negative and whose current frame is within [[0, total_frames]], the
    current frame stays within it and the frame count is not changed; one
    step forward or back moves the current frame by one, stopping at
    the ends, and a seek goes to its argument clamped to the interval. *)
Theorem current_frame_stays_in_range (cs : list cursor_call) (self : Analyzer) :
  0 ≤ total_frames self →
  frame_in_range self →
  frame_in_range (cursor_run cs self)
  ∧ total_frames (cursor_run cs self) = total_frames self
  ∧ current_frame (next_frame self)
    = Z.min (current_frame self + 1) (total_frames self)
  ∧ current_frame (prev_frame self) = Z.max 0 (current_frame self - 1)
  ∧ (∀ frame,
       current_frame (seek_video frame self)
       = Z.max 0 (Z.min frame (total_frames self))).
Proof.
  intros Ht Hr. split_and!.
  - unfold cursor_run. revert self Ht Hr.
    induction cs as [|c cs IH]; intros self Ht Hr; simpl; [done|].
    apply IH.
    + by rewrite cursor_step_total.
    + by apply cursor_step_in_range.
  - unfold cursor_run. clear Ht Hr. revert self.
    induction cs as [|c cs IH]; intros self; simpl; [done|].
    by rewrite IH, cursor_step_total.
  - unfold frame_in_range in Hr. simpl. unfold clamp. lia.
  - unfold frame_in_range in Hr. simpl. unfold clamp. lia.
  - intros frame. reflexivity.
Qed.

Lemma current_frame_stays_in_range_witness :
  frame_in_range
    (cursor_run [Retreat; Seek 9000; Advance; Seek (-7); Retreat] match_session).
Proof.
  apply (current_frame_stays_in_range
           [Retreat; Seek 9000; Advance; Seek (-7); Retreat] match_session).
  - simpl. lia.
  - unfold frame_in_range. simpl. lia.
Defined.

(** * Further properties of the code *)

(** ** The tag manager: what a sequence of [add_tag] calls leaves *)

Local Close Scope Z_scope.

Lemma first_call_name (n : string) (calls : list add_call) (c : add_call) :
  first_call n calls = Some c → call_name c = n ∧ c ∈ calls.
Proof.
  induction calls as [|c' calls IH]; simpl; [done|].
  destruct (decide (call_name c' = n)) as [Hn|Hn].
  - intros [= ->]. split; [done|]. apply list_elem_of_here.
  - intros H. destruct (IH H) as [? ?]. split; [done|].
    by apply list_elem_of_further.
Qed.

Lemma first_call_None (n : string) (calls : list add_call) :
  first_call n calls = None ↔ n ∉ call_name <$> calls.
Proof.
  induction calls as [|c' calls IH]; simpl.
  - split; [intros _; apply not_elem_of_nil | done].
  - rewrite not_elem_of_cons. destruct (decide (call_name c' = n)) as [Hn|Hn].
    + split; [done|]. intros [Hne _]. by destruct Hne.
    + rewrite IH. split; [|tauto]. intros H. split; [congruence|done].
Qed.

Lemma first_call_app (n : string) (calls : list add_call) (c : add_call) :
  first_call n (calls ++ [c])
  = match first_call n calls with
    | Some c' => Some c'
    | None => if decide (call_name c = n) then Some c else None
    end.
Proof.
  induction calls as [|c' calls IH]; simpl; [done|].
  by destruct (decide (call_name c' = n)).
Qed.

(** The two [add_tag] differ in the colour of a tag that is given none, a
    function [dflt] of the tag count.  What follows from the rest is proved
    once. *)
Section Registry.

Variable add : TagManager → string → option string → option string → TagManager.
Variable dflt : nat → string.

Hypothesis add_present : ∀ tm tag sc col, tag ∈ tags tm → add tm tag sc col = tm.
Hypothesis add_fresh : ∀ tm tag sc col,
  tag ∉ tags tm →
  add tm tag sc col
  = {| tags := tags tm ++ [tag];
       shortcuts := match truthy sc with
                    | Some s => <[tag := s]> (shortcuts tm)
                    | None => shortcuts tm
                    end;
       tag_colors :=
         <[tag := match truthy col with
                  | Some c => c
                  | None => dflt (length (tags tm ++ [tag]))
                  end]> (tag_colors tm) |}.

Lemma truthy_nonempty (o : option string) (s : string) :
  truthy o = Some s → s ≠ "".
Proof.
  destruct o as [x|]; simpl; [|done].
  destruct (decide (x = "")); [done|]. by intros [= ->].
Qed.

Lemma add_wf (tm : TagManager) tag sc col :
  registry_wf tm → registry_wf (add tm tag sc col).
Proof.
  intros (Hnd & Hcol & Hsc & Hne).
  destruct (decide (tag ∈ tags tm)) as [Hin|Hnin].
  - by rewrite add_present.
  - rewrite add_fresh by done. split_and!; simpl.
    + apply NoDup_app. split_and!; [done| |apply NoDup_singleton].
      intros x Hx ->%list_elem_of_singleton. done.
    + intros n. rewrite elem_of_app, list_elem_of_singleton.
      destruct (decide (n = tag)) as [->|Hn].
      * rewrite lookup_insert_eq. split; [by right | by eexists].
      * rewrite lookup_insert_ne by done. rewrite Hcol. tauto.
    + intros n Hn. rewrite elem_of_app, list_elem_of_singleton.
      destruct (decide (n = tag)) as [->|Hneq]; [by right|]. left.
      apply Hsc. destruct (truthy sc); [|done].
      by rewrite lookup_insert_ne in Hn.
    + intros n s. destruct (truthy sc) as [s'|] eqn:E; [|by apply Hne].
      destruct (decide (n = tag)) as [->|Hneq].
      * rewrite lookup_insert_eq. intros [= <-]. by eapply truthy_nonempty.
      * rewrite lookup_insert_ne by done. by apply Hne.
Qed.

Lemma run_wf (calls : list add_call) (tm : TagManager) :
  registry_wf tm → registry_wf (run_with add calls tm).
Proof.
  unfold run_with. revert tm.
  induction calls as [|c calls IH]; intros tm Hwf; simpl; [done|].
  apply IH. by apply add_wf.
Qed.

Lemma new_wf : registry_wf new_TagManager.
Proof.
  split_and!; simpl.
  - constructor.
  - intros n. rewrite lookup_empty. split; [by intros [? ?]|].
    intros H. by apply elem_of_nil in H.
  - intros n. rewrite lookup_empty. by intros [? ?].
  - intros n sc. by rewrite lookup_empty.
Qed.

Lemma run_snoc (calls : list add_call) (c : add_call) (tm : TagManager) :
  run_with add (calls ++ [c]) tm
  = add (run_with add calls tm) (call_name c) (call_shortcut c) (call_color c).
Proof. unfold run_with. by rewrite foldl_snoc. Qed.

Lemma run_tags_names (calls : list add_call) (n : string) :
  n ∈ tags (run_with add calls new_TagManager) ↔ n ∈ call_name <$> calls.
Proof.
  induction calls as [|c calls IH] using rev_ind.
  - simpl. split; intros H; by apply elem_of_nil in H.
  - rewrite run_snoc, fmap_app, elem_of_app. simpl.
    rewrite list_elem_of_singleton, <- IH.
    destruct (decide (call_name c ∈ tags (run_with add calls new_TagManager)))
      as [Hin|Hnin].
    + rewrite add_present by done. split; [tauto|]. by intros [?| ->].
    + rewrite add_fresh by done. simpl.
      by rewrite elem_of_app, list_elem_of_singleton.
Qed.

(** The shortcut of a name is the one its first call gave. *)
Lemma run_shortcut (calls : list add_call) (n : string) :
  shortcuts (run_with add calls new_TagManager) !! n
  = first_call n calls ≫= given_shortcut.
Proof.
  induction calls as [|c calls IH] using rev_ind; [done|].
  rewrite run_snoc, first_call_app.
  pose proof (run_wf calls new_TagManager new_wf) as (_ & _ & Hsc & _).
  pose proof (run_tags_names calls) as Hnames.
  set (tm := run_with add calls new_TagManager) in *.
  destruct (decide (call_name c ∈ tags tm)) as [Hin|Hnin].
  - rewrite add_present by done. rewrite IH.
    destruct (first_call n calls) as [c'|] eqn:E; [done|].
    destruct (decide (call_name c = n)) as [<-|]; [|done].
    apply first_call_None in E. by apply Hnames in Hin.
  - rewrite add_fresh by done. simpl.
    destruct (decide (call_name c = n)) as [<-|Hne].
    + assert (first_call (call_name c) calls = None) as ->.
      { apply first_call_None. by rewrite <- Hnames. }
      simpl. unfold given_shortcut.
      destruct (truthy (call_shortcut c)) as [s|] eqn:E.
      * by rewrite lookup_insert_eq.
      * destruct (shortcuts tm !! call_name c) eqn:E'; [|done].
        destruct Hnin. apply Hsc. by eexists.
    + replace (match first_call n calls with
               | Some c' => Some c'
               | None => None
               end) with (first_call n calls) by (by destruct (first_call n calls)).
      rewrite <- IH. destruct (truthy (call_shortcut c)); [|done].
      by rewrite lookup_insert_ne.
Qed.

(** The colour of the tag at position [i] is the one its first call gave, or
    the default for a tag count of [i + 1]. *)
Lemma run_color (calls : list add_call) (i : nat) (n : string) :
  tags (run_with add calls new_TagManager) !! i = Some n →
  tag_colors (run_with add calls new_TagManager) !! n
  = Some (default (dflt (S i)) (first_call n calls ≫= given_color)).
Proof.
  revert i n. induction calls as [|c calls IH] using rev_ind; intros i n.
  { simpl. by rewrite lookup_nil. }
  rewrite run_snoc, first_call_app.
  pose proof (run_tags_names calls) as Hnames.
  set (tm := run_with add calls new_TagManager) in *.
  destruct (decide (call_name c ∈ tags tm)) as [Hin|Hnin].
  - rewrite add_present by done. intros Hi. rewrite (IH i n Hi).
    destruct (first_call n calls) as [c'|] eqn:E; [done|].
    apply first_call_None in E. destruct E. apply Hnames.
    by eapply list_elem_of_lookup_2.
  - rewrite add_fresh by done. simpl. intros Hi.
    destruct (decide (i < length (tags tm))) as [Hlt|Hge].
    + rewrite lookup_app_l in Hi by done.
      assert (n ∈ tags tm) as Hn by (by eapply list_elem_of_lookup_2).
      assert (n ≠ call_name c) by congruence.
      rewrite lookup_insert_ne by done. rewrite (IH i n Hi).
      destruct (first_call n calls) as [c'|] eqn:E; [done|].
      apply first_call_None in E. destruct E. by apply Hnames.
    + rewrite lookup_app_r in Hi by lia.
      apply list_lookup_singleton_Some in Hi as [Hi <-].
      rewrite lookup_insert_eq.
      assert (first_call (call_name c) calls = None) as ->.
      { apply first_call_None. by rewrite <- Hnames. }
      rewrite decide_True by done. simpl. unfold given_color.
      rewrite length_app. simpl.
      replace (length (tags tm) + 1) with (S i) by lia.
      by destruct (truthy (call_color c)).
Qed.

End Registry.

Lemma main_is_registry tm tag sc col :
  tag ∉ tags tm →
  MainPy.add_tag tm tag sc col
  = {| tags := tags tm ++ [tag];
       shortcuts := match truthy sc with
                    | Some s => <[tag := s]> (shortcuts tm)
                    | None => shortcuts tm
                    end;
       tag_colors :=
         <[tag := match truthy col with
                  | Some c => c
                  | None => MainPy.palette_color (length (tags tm ++ [tag]))
                  end]> (tag_colors tm) |}.
Proof. apply main_add_fresh. Qed.

Lemma editor_is_registry tm tag sc col :
  tag ∉ tags tm →
  SiamakEditorPy.add_tag tm tag sc col
  = {| tags := tags tm ++ [tag];
       shortcuts := match truthy sc with
                    | Some s => <[tag := s]> (shortcuts tm)
                    | None => shortcuts tm
                    end;
       tag_colors :=
         <[tag := match truthy col with
                  | Some c => c
                  | None => (λ _ : nat, neutral_color) (length (tags tm ++ [tag]))
                  end]> (tag_colors tm) |}.
Proof. apply editor_add_fresh. Qed.

Lemma run_main_wf (calls : list add_call) (tm : TagManager) :
  registry_wf tm → registry_wf (run_main calls tm).
Proof.
  apply (run_wf MainPy.add_tag MainPy.palette_color);
    [apply main_add_present | apply main_is_registry].
Qed.

Lemma run_editor_wf (calls : list add_call) (tm : TagManager) :
  registry_wf tm → registry_wf (run_editor calls tm).
Proof.
  apply (run_wf SiamakEditorPy.add_tag (λ _, neutral_color));
    [apply editor_add_present | apply editor_is_registry].
Qed.

Lemma run_main_names (calls : list add_call) (n : string) :
  n ∈ tags (run_main calls new_TagManager) ↔ n ∈ call_name <$> calls.
Proof.
  apply (run_tags_names MainPy.add_tag MainPy.palette_color);
    [apply main_add_present | apply main_is_registry].
Qed.

Lemma run_editor_names (calls : list add_call) (n : string) :
  n ∈ tags (run_editor calls new_TagManager) ↔ n ∈ call_name <$> calls.
Proof.
  apply (run_tags_names SiamakEditorPy.add_tag (λ _, neutral_color));
    [apply editor_add_present | apply editor_is_registry].
Qed.

Lemma run_main_shortcut (calls : list add_call) (n : string) :
  shortcuts (run_main calls new_TagManager) !! n
  = first_call n calls ≫= given_shortcut.
Proof.
  apply (run_shortcut MainPy.add_tag MainPy.palette_color);
    [apply main_add_present | apply main_is_registry].
Qed.

Lemma run_editor_shortcut (calls : list add_call) (n : string) :
  shortcuts (run_editor calls new_TagManager) !! n
  = first_call n calls ≫= given_shortcut.
Proof.
  apply (run_shortcut SiamakEditorPy.add_tag (λ _, neutral_color));
    [apply editor_add_present | apply editor_is_registry].
Qed.

Lemma run_main_color (calls : list add_call) (i : nat) (n : string) :
  tags (run_main calls new_TagManager) !! i = Some n →
  tag_colors (run_main calls new_TagManager) !! n
  = Some (default (MainPy.palette_color (S i))
                  (first_call n calls ≫= given_color)).
Proof.
  apply (run_color MainPy.add_tag MainPy.palette_color);
    [apply main_add_present | apply main_is_registry].
Qed.

Lemma run_editor_color (calls : list add_call) (i : nat) (n : string) :
  tags (run_editor calls new_TagManager) !! i = Some n →
  tag_colors (run_editor calls new_TagManager) !! n
  = Some (default neutral_color (first_call n calls ≫= given_color)).
Proof.
  apply (run_color SiamakEditorPy.add_tag (λ _, neutral_color));
    [apply editor_add_present | apply editor_is_registry].
Qed.

(** X1.  Every manager a sequence of [add_tag] calls builds from a
    well-formed one is well-formed: no tag twice, a colour stored for exactly
    the registered tags, shortcuts stored for registered tags only and never
    an empty one.  So for both files. *)
Theorem add_tag_keeps_registry_wf (calls : list add_call) (tm : TagManager) :
  registry_wf tm →
  registry_wf (run_main calls tm) ∧ registry_wf (run_editor calls tm).
Proof.
  intros Hwf. split; [by apply run_main_wf | by apply run_editor_wf].
Qed.

Lemma add_tag_keeps_registry_wf_witness :
  registry_wf (run_main default_tags new_TagManager)
  ∧ registry_wf (run_editor default_tags new_TagManager).
Proof.
  apply (add_tag_keeps_registry_wf default_tags new_TagManager).
  split_and!; simpl.
  - constructor.
  - intros n. rewrite lookup_empty. split; [by intros [? ?]|].
    intros H. by apply elem_of_nil in H.
  - intros n. rewrite lookup_empty. by intros [? ?].
  - intros n sc. by rewrite lookup_empty.
Defined.

(** X2.  A name that no call has registered has the neutral colour and no
    shortcut, whatever calls were made; a registered name never falls back
    to the neutral default: its colour is the stored one. *)
Theorem unregistered_name_lookups (calls : list add_call) (n : string) :
  (n ∉ call_name <$> calls →
   get_tag_color (run_main calls new_TagManager) n = neutral_color
   ∧ get_shortcut (run_main calls new_TagManager) n = None
   ∧ get_tag_color (run_editor calls new_TagManager) n = neutral_color
   ∧ get_shortcut (run_editor calls new_TagManager) n = None)
  ∧ (n ∈ call_name <$> calls →
     is_Some (tag_colors (run_main calls new_TagManager) !! n)
     ∧ is_Some (tag_colors (run_editor calls new_TagManager) !! n)).
Proof.
  destruct (run_main_wf calls new_TagManager new_wf) as (_ & Hcm & Hsm & _).
  destruct (run_editor_wf calls new_TagManager new_wf) as (_ & Hce & Hse & _).
  pose proof (run_main_names calls n) as Hm.
  pose proof (run_editor_names calls n) as He.
  unfold get_tag_color, get_shortcut. split.
  - intros Hn. rewrite <- Hm in Hn.
    assert (n ∉ tags (run_editor calls new_TagManager)) as Hn'
      by (rewrite He, <- Hm; done).
    split_and!.
    + destruct (tag_colors (run_main calls new_TagManager) !! n) eqn:E; [|done].
      destruct Hn. apply Hcm. by eexists.
    + destruct (shortcuts (run_main calls new_TagManager) !! n) eqn:E; [|done].
      destruct Hn. apply Hsm. by eexists.
    + destruct (tag_colors (run_editor calls new_TagManager) !! n) eqn:E; [|done].
      destruct Hn'. apply Hce. by eexists.
    + destruct (shortcuts (run_editor calls new_TagManager) !! n) eqn:E; [|done].
      destruct Hn'. apply Hse. by eexists.
  - intros Hn. split; [apply Hcm; by apply Hm | apply Hce; by apply He].
Qed.

Lemma unregistered_name_lookups_witness :
  get_tag_color (run_main default_tags new_TagManager) "Offside" = "#DDDDDD"
  ∧ get_shortcut (run_main default_tags new_TagManager) "Offside" = None.
Proof.
  destruct (unregistered_name_lookups default_tags "Offside") as [H _].
  destruct H as (H1 & H2 & _).
  - apply (bool_decide_unpack _). vm_compute. exact I.
  - split; [exact H1 | exact H2].
Defined.

(** X3.  After any sequence of calls on a fresh manager, [get_shortcut] of a
    name is the shortcut its first call passed, if that was a non-empty
    string, and nothing otherwise: later calls with the same name never
    add or replace a shortcut.  So for both files. *)
Theorem get_shortcut_of_first_call (calls : list add_call) (n : string) :
  get_shortcut (run_main calls new_TagManager) n
  = first_call n calls ≫= given_shortcut
  ∧ get_shortcut (run_editor calls new_TagManager) n
    = first_call n calls ≫= given_shortcut.
Proof.
  split; [apply run_main_shortcut | apply run_editor_shortcut].
Qed.

(** X4.  After any sequence of calls on a fresh manager, the tag at position
    [i] of [get_tags] has the colour its first call passed, if that was a
    non-empty string; otherwise, in [src/main.py], the palette entry
    [(i + 1) mod 11], and in [src/SiamakEditor.py] the neutral colour. *)
Theorem get_tag_color_by_position (calls : list add_call) (i : nat)
    (n : string) :
  (get_tags (run_main calls new_TagManager) !! i = Some n →
   get_tag_color (run_main calls new_TagManager) n
   = default (MainPy.palette_color (S i)) (first_call n calls ≫= given_color)
   ∧ subscript available_colors (S i mod length available_colors)
     = Some (MainPy.palette_color (S i)))
  ∧ (get_tags (run_editor calls new_TagManager) !! i = Some n →
     get_tag_color (run_editor calls new_TagManager) n
     = default neutral_color (first_call n calls ≫= given_color)).
Proof.
  unfold get_tags, get_tag_color. split.
  - intros Hi. rewrite (run_main_color calls i n Hi).
    split; [done | apply palette_subscript].
  - intros Hi. by rewrite (run_editor_color calls i n Hi).
Qed.

Lemma get_tag_color_by_position_witness :
  get_tag_color (run_main default_tags new_TagManager) "SetPiece"
  = MainPy.palette_color 4.
Proof.
  destruct (get_tag_color_by_position default_tags 3 "SetPiece") as [H _].
  destruct H as [H _]; [reflexivity|].
  rewrite H. reflexivity.
Defined.

Lemma palette_NoDup : NoDup available_colors.
Proof. apply (bool_decide_unpack _). by vm_compute. Qed.

Lemma palette_color_eq (a b : nat) :
  MainPy.palette_color a = MainPy.palette_color b ↔ a mod 11 = b mod 11.
Proof.
  pose proof (palette_subscript a) as Ha.
  pose proof (palette_subscript b) as Hb.
  change (length available_colors) with 11 in Ha, Hb.
  split.
  - intros E. rewrite E in Ha.
    by eapply (NoDup_lookup available_colors); [apply palette_NoDup|..].
  - intros E. rewrite E in Ha. rewrite Ha in Hb. by injection Hb.
Qed.

Lemma succ_mod_11 (i j : nat) :
  S i mod 11 = S j mod 11 ↔ i mod 11 = j mod 11.
Proof.
  pose proof (Nat.div_mod_eq i 11). pose proof (Nat.div_mod_eq j 11).
  pose proof (Nat.div_mod_eq (S i) 11). pose proof (Nat.div_mod_eq (S j) 11).
  pose proof (Nat.mod_upper_bound i 11). pose proof (Nat.mod_upper_bound j 11).
  pose proof (Nat.mod_upper_bound (S i) 11).
  pose proof (Nat.mod_upper_bound (S j) 11).
  lia.
Qed.

(** X5.  In [src/main.py], when no call passes a colour, two tags have the
    same colour exactly when their positions in [get_tags] are congruent
    modulo 11: the first eleven tags have eleven different colours, and the
    twelfth has the colour of the first. *)
Theorem palette_colors_repeat_every_11 (calls : list add_call)
    (i j : nat) (ni nj : string) :
  Forall (λ c, given_color c = None) calls →
  get_tags (run_main calls new_TagManager) !! i = Some ni →
  get_tags (run_main calls new_TagManager) !! j = Some nj →
  (get_tag_color (run_main calls new_TagManager) ni
   = get_tag_color (run_main calls new_TagManager) nj
   ↔ i mod 11 = j mod 11).
Proof.
  intros Hcalls Hi Hj.
  assert (∀ n, first_call n calls ≫= given_color = None) as Hnone.
  { intros n. destruct (first_call n calls) as [c|] eqn:E; [|done].
    apply first_call_name in E as [_ Hc]. simpl.
    by apply (proj1 (Forall_forall _ _) Hcalls). }
  unfold get_tags, get_tag_color in *.
  rewrite (run_main_color calls i ni Hi), (run_main_color calls j nj Hj).
  rewrite !Hnone. simpl. rewrite palette_color_eq.
  apply succ_mod_11.
Qed.

Lemma palette_colors_repeat_every_11_witness :
  get_tag_color (run_main default_tags new_TagManager) "DefCorner"
  ≠ get_tag_color (run_main default_tags new_TagManager) "Goal".
Proof.
  pose proof (palette_colors_repeat_every_11 default_tags 0 4
                "DefCorner" "Goal") as H.
  intros E. apply H in E; [discriminate E | repeat constructor | done | done].
Defined.

Lemma truthy_truthy (o : option string) : truthy (truthy o) = truthy o.
Proof.
  destruct o as [s|]; simpl; [|done].
  destruct (decide (s = "")) as [|Hs]; simpl; [done|].
  by rewrite decide_False.
Qed.

Lemma NoDup_bindings (f : string → option string) (l : list string) :
  NoDup l →
  NoDup (omap (λ tag, match f tag with
                      | Some sc => Some (sc, tag)
                      | None => None
                      end) l).*2.
Proof.
  induction 1 as [|n l Hn Hnd IH]; simpl; [constructor|].
  destruct (f n); simpl; [|done].
  apply NoDup_cons. split; [|done].
  intros Hin. apply Hn.
  apply list_elem_of_fmap in Hin as ([sc n'] & -> & Hin). simpl.
  apply list_elem_of_omap in Hin as (n'' & Hn'' & E).
  destruct (f n''); [|done]. by injection E as _ <-.
Qed.

(** X6.  The tag shortcuts [setup_shortcuts] binds for a manager built by
    any sequence of calls on a fresh one: a key sequence is bound to a tag
    exactly when the first call with that tag's name passed that key
    sequence, non-empty; and no tag is bound twice. *)
Theorem tag_shortcut_bindings_of_first_calls (calls : list add_call) :
  (∀ sc n,
     (sc, n) ∈ tag_shortcut_bindings (run_main calls new_TagManager)
     ↔ ∃ c, first_call n calls = Some c ∧ given_shortcut c = Some sc)
  ∧ NoDup (tag_shortcut_bindings (run_main calls new_TagManager)).*2.
Proof.
  destruct (run_main_wf calls new_TagManager new_wf) as (Hnd & _).
  pose proof (run_main_names calls) as Hnames.
  assert (∀ n, truthy (get_shortcut (run_main calls new_TagManager) n)
               = first_call n calls ≫= given_shortcut) as Hsc.
  { intros n. unfold get_shortcut. rewrite run_main_shortcut.
    destruct (first_call n calls) as [c|]; simpl; [|done].
    unfold given_shortcut. apply truthy_truthy. }
  split.
  - intros sc n. unfold tag_shortcut_bindings. rewrite list_elem_of_omap.
    split.
    + intros (n' & Hn' & E). rewrite Hsc in E.
      destruct (first_call n' calls) as [c|] eqn:Ec; simpl in E; [|done].
      destruct (given_shortcut c) as [s|] eqn:Es; [|done].
      injection E as <- <-. by exists c.
    + intros (c & Ec & Es). exists n. split.
      * apply Hnames. apply first_call_name in Ec as [<- Hc].
        by apply list_elem_of_fmap_2.
      * rewrite Hsc, Ec. simpl. by rewrite Es.
  - unfold tag_shortcut_bindings.
    apply (NoDup_bindings
             (λ tag, truthy (get_shortcut (run_main calls new_TagManager) tag))).
    exact Hnd.
Qed.

(** X7.  [change_tag_color] of [src/SiamakEditor.py] changes nothing when no
    tag button has been pressed or the colour dialog is cancelled; otherwise
    the selected tag has the chosen colour afterwards, every other tag keeps
    its colour, and the tag list and the shortcuts are untouched.  A later
    [add_tag] with the name of a registered tag keeps the chosen colour. *)
Theorem change_tag_color_sets_one_color (tm : TagManager)
    (selected chosen : option string) :
  (selected = None ∨ chosen = None → change_tag_color selected chosen tm = tm)
  ∧ get_tags (change_tag_color selected chosen tm) = get_tags tm
  ∧ shortcuts (change_tag_color selected chosen tm) = shortcuts tm
  ∧ (∀ tag name, selected = Some tag → chosen = Some name →
       get_tag_color (change_tag_color selected chosen tm) tag = name
       ∧ (∀ n, n ≠ tag →
            get_tag_color (change_tag_color selected chosen tm) n
            = get_tag_color tm n)
       ∧ (tag ∈ get_tags tm →
          ∀ sc col,
            SiamakEditorPy.add_tag (change_tag_color selected chosen tm)
                                   tag sc col
            = change_tag_color selected chosen tm)).
Proof.
  split_and!.
  - intros [-> | ->]; [done|]. by destruct selected.
  - by destruct selected, chosen.
  - by destruct selected, chosen.
  - intros tag name -> ->. unfold get_tag_color. simpl. split_and!.
    + by rewrite lookup_insert_eq.
    + intros n Hn. by rewrite lookup_insert_ne.
    + intros Hin sc col. by apply editor_add_present.
Qed.

Lemma change_tag_color_sets_one_color_witness :
  let tm := run_editor default_tags new_TagManager in
  change_tag_color None (Some "#00ff00") tm = tm
  ∧ get_tag_color (change_tag_color (Some "Goal") (Some "#00ff00") tm) "Goal"
    = "#00ff00".
Proof.
  intros tm. split.
  - apply (change_tag_color_sets_one_color tm None (Some "#00ff00")).
    left. reflexivity.
  - destruct (change_tag_color_sets_one_color tm (Some "Goal") (Some "#00ff00"))
      as (_ & _ & _ & H).
    destruct (H "Goal" "#00ff00") as (H1 & _); [reflexivity | reflexivity |].
    exact H1.
Defined.

(** ** [lighter_color] *)

Local Open Scope Z_scope.

Lemma hex_value_range (c : ascii) (v : Z) : hex_value c = Some v → 0 ≤ v ≤ 15.
Proof.
  unfold hex_value. intros H.
  repeat match type of H with
         | (if ?b then _ else _) = _ => destruct b eqn:?
         end; simplify_eq; lia.
Qed.

(** With the default factor the floating-point product, truncated, is the
    integer quotient: no rounding error reaches the result. *)
Lemma lighter_value_default (val : Z) :
  -15 ≤ val ≤ 255 → lighter_value default_factor val = Some (lighten val).
Proof.
  intros Hv.
  assert (Forall (λ v, lighter_value default_factor v = Some (lighten v))
                 (seqZ (-15) 271)) as Hall.
  { apply (bool_decide_unpack _). by vm_compute. }
  apply (proj1 (Forall_forall _ _) Hall). apply elem_of_seqZ. lia.
Qed.

Lemma format_02X_digits (v : Z) :
  0 ≤ v ≤ 255 → two_hex_digits (format_02X v) = Some (v / 16, v mod 16).
Proof.
  intros Hv.
  assert (Forall (λ v, two_hex_digits (format_02X v) = Some (v / 16, v mod 16))
                 (seqZ 0 256)) as Hall.
  { apply (bool_decide_unpack _). by vm_compute. }
  apply (proj1 (Forall_forall _ _) Hall). apply elem_of_seqZ. lia.
Qed.

Lemma lighten_range (v : Z) : 0 ≤ v ≤ 255 → v ≤ lighten v ≤ 255.
Proof. unfold lighten. intros Hv. Z.to_euclidean_division_equations. lia. Qed.

Lemma lighten_fixed (v : Z) : 0 ≤ v ≤ 255 → (lighten v = v ↔ 252 ≤ v).
Proof. unfold lighten. intros Hv. Z.to_euclidean_division_equations. lia. Qed.

Lemma substring_0_0 (s : string) : String.substring 0 0 s = "".
Proof. by destruct s. Qed.

Lemma int_two_hex_digits (c1 c2 : ascii) (a b : Z) :
  hex_value c1 = Some a → hex_value c2 = Some b →
  match hex_value c1, hex_value c2 with
  | Some a, Some b => Some (16 * a + b)
  | None, Some b =>
      if int_space c1 then Some b
      else if decide (c1 = "+"%char) then Some b
      else if decide (c1 = "-"%char) then Some (- b)
      else None
  | Some a, None => if int_space c2 then Some a else None
  | None, None => None
  end = Some (16 * a + b).
Proof. by intros -> ->. Qed.

Lemma channels_color_name (r1 r2 g1 g2 b1 b2 : ascii) (rest : string)
    (a1 a2 a3 a4 a5 a6 : Z) :
  hex_value r1 = Some a1 → hex_value r2 = Some a2 →
  hex_value g1 = Some a3 → hex_value g2 = Some a4 →
  hex_value b1 = Some a5 → hex_value b2 = Some a6 →
  channels (color_name r1 r2 g1 g2 b1 b2 +:+ rest)
  = Some (16 * a1 + a2, 16 * a3 + a4, 16 * a5 + a6).
Proof.
  intros H1 H2 H3 H4 H5 H6. unfold channels.
  assert (int_slice16 (color_name r1 r2 g1 g2 b1 b2 +:+ rest) 1
          = Some (16 * a1 + a2)) as ->.
  { unfold int_slice16, color_name. simpl. by apply int_two_hex_digits. }
  assert (int_slice16 (color_name r1 r2 g1 g2 b1 b2 +:+ rest) 3
          = Some (16 * a3 + a4)) as ->.
  { unfold int_slice16, color_name. simpl. by apply int_two_hex_digits. }
  assert (int_slice16 (color_name r1 r2 g1 g2 b1 b2 +:+ rest) 5
          = Some (16 * a5 + a6)) as ->.
  { unfold int_slice16, color_name. simpl. rewrite substring_0_0. simpl.
    by apply int_two_hex_digits. }
  done.
Qed.

Lemma lighter_color_channels (hex_color : string) (factor : float) :
  lighter_color hex_color factor
  = channels hex_color ≫= λ '(r, g, b),
      r' ← lighter_value factor r;
      g' ← lighter_value factor g;
      b' ← lighter_value factor b;
      Some ("#" +:+ format_02X r' +:+ format_02X g' +:+ format_02X b').
Proof.
  unfold lighter_color, channels.
  destruct (int_slice16 hex_color 1); simpl; [|done].
  destruct (int_slice16 hex_color 3); simpl; [|done].
  by destruct (int_slice16 hex_color 5).
Qed.

(** X8.  For a colour name that starts with [#] and six hexadecimal digits,
    upper or lower case, whatever follows them, [lighter_color] with the
    default factor returns [#] and, in two upper-case hexadecimal digits
    each, the three channels moved three tenths of the way to 255, rounded
    down: [c + (255 - c) * 3 / 10].  The floating-point product of the code
    gives exactly this integer. *)
Theorem lighter_color_of_hex_digits (r1 r2 g1 g2 b1 b2 : ascii)
    (rest : string) (a1 a2 a3 a4 a5 a6 : Z) :
  hex_value r1 = Some a1 → hex_value r2 = Some a2 →
  hex_value g1 = Some a3 → hex_value g2 = Some a4 →
  hex_value b1 = Some a5 → hex_value b2 = Some a6 →
  lighter_color (color_name r1 r2 g1 g2 b1 b2 +:+ rest) default_factor
  = Some ("#" +:+ format_02X (lighten (16 * a1 + a2))
              +:+ format_02X (lighten (16 * a3 + a4))
              +:+ format_02X (lighten (16 * a5 + a6))).
Proof.
  intros H1 H2 H3 H4 H5 H6.
  rewrite lighter_color_channels.
  rewrite (channels_color_name _ _ _ _ _ _ _ _ _ _ _ _ _ H1 H2 H3 H4 H5 H6).
  apply hex_value_range in H1, H2, H3, H4, H5, H6. simpl.
  by rewrite !lighter_value_default by lia.
Qed.

Lemma lighter_color_of_hex_digits_witness :
  lighter_color "#ff9999" default_factor = Some "#FFB7B7".
Proof.
  exact (lighter_color_of_hex_digits "f" "f" "9" "9" "9" "9" "" 15 15 9 9 9 9
           eq_refl eq_refl eq_refl eq_refl eq_refl eq_refl).
Defined.

(** X9.  When the three channels [lighter_color] reads are between 0 and
    255, its result with the default factor has seven characters and reads
    back as three channels, each at least the one it came from, at most 255,
    and unchanged exactly from 252 on; so the result can be lightened
    again, and white stays white. *)
Theorem lighter_color_never_darker (hex_color : string) (r g b : Z) :
  channels hex_color = Some (r, g, b) →
  0 ≤ r ≤ 255 → 0 ≤ g ≤ 255 → 0 ≤ b ≤ 255 →
  ∃ out r' g' b',
    lighter_color hex_color default_factor = Some out
    ∧ String.length out = 7%nat
    ∧ channels out = Some (r', g', b')
    ∧ (r ≤ r' ≤ 255 ∧ g ≤ g' ≤ 255 ∧ b ≤ b' ≤ 255)
    ∧ ((r' = r ↔ 252 ≤ r) ∧ (g' = g ↔ 252 ≤ g) ∧ (b' = b ↔ 252 ≤ b))
    ∧ is_Some (lighter_color out default_factor).
Proof.
  intros Hch Hr Hg Hb.
  pose proof (lighten_range r Hr) as Hr'.
  pose proof (lighten_range g Hg) as Hg'.
  pose proof (lighten_range b Hb) as Hb'.
  exists ("#" +:+ format_02X (lighten r) +:+ format_02X (lighten g)
              +:+ format_02X (lighten b)), (lighten r), (lighten g), (lighten b).
  rewrite lighter_color_channels, Hch. simpl.
  rewrite !lighter_value_default by lia. simpl.
  pose proof (format_02X_digits (lighten r)) as Fr.
  pose proof (format_02X_digits (lighten g)) as Fg.
  pose proof (format_02X_digits (lighten b)) as Fb.
  destruct (format_02X (lighten r)) as [|r1 [|r2 [|]]];
    try (by discriminate Fr; lia).
  destruct (format_02X (lighten g)) as [|g1 [|g2 [|]]];
    try (by discriminate Fg; lia).
  destruct (format_02X (lighten b)) as [|b1 [|b2 [|]]];
    try (by discriminate Fb; lia).
  simpl in Fr, Fg, Fb.
  destruct (hex_value r1) as [x1|] eqn:E1; [|by discriminate Fr; lia].
  destruct (hex_value r2) as [x2|] eqn:E2; [|by discriminate Fr; lia].
  destruct (hex_value g1) as [x3|] eqn:E3; [|by discriminate Fg; lia].
  destruct (hex_value g2) as [x4|] eqn:E4; [|by discriminate Fg; lia].
  destruct (hex_value b1) as [x5|] eqn:E5; [|by discriminate Fb; lia].
  destruct (hex_value b2) as [x6|] eqn:E6; [|by discriminate Fb; lia].
  simpl in Fr, Fg, Fb.
  assert (16 * x1 + x2 = lighten r) as Er.
  { specialize (Fr ltac:(lia)). injection Fr as -> ->.
    Z.to_euclidean_division_equations. lia. }
  assert (16 * x3 + x4 = lighten g) as Eg.
  { specialize (Fg ltac:(lia)). injection Fg as -> ->.
    Z.to_euclidean_division_equations. lia. }
  assert (16 * x5 + x6 = lighten b) as Eb.
  { specialize (Fb ltac:(lia)). injection Fb as -> ->.
    Z.to_euclidean_division_equations. lia. }
  assert (channels (color_name r1 r2 g1 g2 b1 b2 +:+ "")
          = Some (lighten r, lighten g, lighten b)) as Hout.
  { rewrite (channels_color_name _ _ _ _ _ _ _ _ _ _ _ _ _ E1 E2 E3 E4 E5 E6).
    by rewrite Er, Eg, Eb. }
  split; [reflexivity|]. split; [reflexivity|]. split; [exact Hout|].
  split; [lia|]. split; [by split_and!; apply lighten_fixed|].
  change (is_Some (lighter_color (color_name r1 r2 g1 g2 b1 b2 +:+ "")
                                 default_factor)).
  rewrite lighter_color_channels, Hout. simpl.
  rewrite !lighter_value_default by lia. by eexists.
Qed.

Lemma lighter_color_never_darker_witness :
  ∃ out, lighter_color "#FFFFFF" default_factor = Some out
         ∧ channels out = Some (255, 255, 255).
Proof.
  destruct (lighter_color_never_darker "#FFFFFF" 255 255 255)
    as (out & r' & g' & b' & H1 & _ & H2 & _ & (Hr & Hg & Hb) & _);
    [reflexivity | lia | lia | lia |].
  exists out. split; [exact H1|].
  rewrite H2.
  assert (r' = 255) as -> by (apply Hr; lia).
  assert (g' = 255) as -> by (apply Hg; lia).
  assert (b' = 255) as -> by (apply Hb; lia).
  reflexivity.
Defined.

Lemma int_slice16_past_end (s : string) (i : nat) :
  (String.length s ≤ i)%nat → int_slice16 s i = None.
Proof.
  intros Hlen. unfold int_slice16.
  assert (String.substring i 2 s = "") as ->; [|done].
  revert i Hlen. induction s as [|c s IH]; intros i Hlen.
  - by destruct i.
  - destruct i as [|i]; simpl in *; [lia|]. apply IH. lia.
Qed.

(** X10.  On a string of fewer than six characters [lighter_color] raises,
    whatever the factor: the slice for the blue channel is empty.  (A string
    of six characters can pass: its last slice has one character.) *)
Theorem lighter_color_short_string (hex_color : string) (factor : float) :
  (String.length hex_color ≤ 5)%nat → lighter_color hex_color factor = None.
Proof.
  intros Hlen. rewrite lighter_color_channels. unfold channels.
  rewrite (int_slice16_past_end hex_color 5 Hlen).
  destruct (int_slice16 hex_color 1); simpl; [|done].
  by destruct (int_slice16 hex_color 3).
Qed.

Lemma lighter_color_short_string_witness :
  lighter_color "#FFF" default_factor = None
  ∧ lighter_color "#FFFFF" default_factor = Some "#FFFF57".
Proof.
  split.
  - apply (lighter_color_short_string "#FFF" default_factor). simpl. lia.
  - reflexivity.
Defined.

Lemma default_colors_lighten :
  Forall (λ c, is_Some (lighter_color c default_factor))
         (neutral_color :: available_colors).
Proof. apply (bool_decide_unpack _). by vm_compute. Qed.

(** X11.  In [src/main.py], when no call has passed a colour, the colour
    [get_tag_color] gives for any name, registered or not, is one
    [lighter_color] accepts: drawing the tag buttons, which lightens the
    colour of every tag, raises nothing. *)
Theorem default_tag_colors_can_be_lightened (calls : list add_call)
    (n : string) :
  Forall (λ c, given_color c = None) calls →
  is_Some (lighter_color (get_tag_color (run_main calls new_TagManager) n)
                         default_factor).
Proof.
  intros Hcalls.
  apply (proj1 (Forall_forall _ _) default_colors_lighten).
  unfold get_tag_color.
  destruct (tag_colors (run_main calls new_TagManager) !! n) as [c|] eqn:E;
    simpl; [|apply list_elem_of_here].
  apply list_elem_of_further.
  destruct (run_main_wf calls new_TagManager new_wf) as (_ & Hcol & _).
  assert (n ∈ tags (run_main calls new_TagManager)) as Hn
    by (apply Hcol; by eexists).
  apply list_elem_of_lookup_1 in Hn as [i Hi].
  rewrite (run_main_color calls i n Hi) in E. injection E as <-.
  assert (first_call n calls ≫= given_color = None) as ->.
  { destruct (first_call n calls) as [c|] eqn:Ec; [|done].
    apply first_call_name in Ec as [_ Hc]. simpl.
    by apply (proj1 (Forall_forall _ _) Hcalls). }
  apply palette_color_elem.
Qed.

Lemma default_tag_colors_can_be_lightened_witness :
  is_Some (lighter_color
             (get_tag_color (run_main default_tags new_TagManager) "Goal")
             default_factor).
Proof.
  apply (default_tag_colors_can_be_lightened default_tags "Goal").
  repeat constructor.
Defined.

(** ** Clips, projects and the playback state *)

(** X12.  One pair of markers gives at most one clip: when an [add_clip]
    has appended a clip, an [add_clip] that follows it, with any text,
    returns without changing anything. *)
Theorem add_clip_once_per_marker_pair (t1 t2 : string)
    (self self1 : Analyzer) :
  add_clip t1 self = Returned self1 →
  self1 ≠ self →
  clip_start self1 = None ∧ clip_end self1 = None
  ∧ add_clip t2 self1 = Returned self1.
Proof.
  unfold add_clip at 1. intros H Hne.
  destruct (clip_start self) as [a|] eqn:Ea; [|by injection H as <-].
  destruct (clip_end self) as [b|] eqn:Eb; [|by injection H as <-].
  destruct (decide (t1 = "")); [by injection H as <-|].
  destruct (clips self) eqn:Ec; try discriminate H.
  injection H as <-. simpl. split_and!; [done..|].
  apply add_clip_marker_missing. by left.
Qed.

Lemma add_clip_once_per_marker_pair_witness :
  ∃ self1,
    add_clip "Goal" (set_clip_end 120 (set_clip_start 50 match_session))
    = Returned self1
    ∧ add_clip "SetPiece" self1 = Returned self1.
Proof.
  eexists. split; [reflexivity|].
  eapply (add_clip_once_per_marker_pair "Goal" "SetPiece"
            (set_clip_end 120 (set_clip_start 50 match_session))).
  - reflexivity.
  - discriminate.
Defined.

(** X13.  [new_project] empties the clip list but leaves the pending
    markers: with both markers set before it, an [add_clip] after it gives
    the new project one clip, with the frames marked in the old video. *)
Theorem new_project_keeps_markers (self : Analyzer) (a b : Z) (tag : string) :
  clip_start self = Some a → clip_end self = Some b → tag ≠ "" →
  clips (new_project self) = PList []
  ∧ clip_start (new_project self) = Some a
  ∧ clip_end (new_project self) = Some b
  ∧ ∃ self',
      add_clip tag (new_project self) = Returned self'
      ∧ clips self' = PList [clip_dict a b tag].
Proof.
  intros Ha Hb Htag. split_and!; [done..|].
  unfold add_clip. simpl. rewrite Ha, Hb, decide_False by done.
  eexists. split; reflexivity.
Qed.

Lemma new_project_keeps_markers_witness :
  ∃ self',
    add_clip "Goal"
      (new_project (set_clip_end 120 (set_clip_start 50 match_session)))
    = Returned self'
    ∧ clips self' = PList [clip_dict 50 120 "Goal"].
Proof.
  destruct (new_project_keeps_markers
              (set_clip_end 120 (set_clip_start 50 match_session))
              50 120 "Goal") as (_ & _ & _ & H);
    [reflexivity | reflexivity | discriminate |].
  exact H.
Defined.

(** X14.  After [new_project] the window is at rest: a second
    [new_project] and a timer tick ([update_frame]) change nothing, and
    [save_data] writes no document and only warns, whatever path is chosen.
    The capture object is still attached, released. *)
Theorem new_project_at_rest (self : Analyzer) (path : string)
    (io : option exn) :
  new_project (new_project self) = new_project self
  ∧ update_frame (new_project self) = new_project self
  ∧ save_data path io (new_project self) = (Warning, None)
  ∧ cap (new_project self) = release <$> cap self.
Proof.
  split_and!.
  - unfold new_project. simpl. f_equal. by destruct (cap self).
  - unfold update_frame. simpl. by destruct (cap self).
  - reflexivity.
  - reflexivity.
Qed.

Lemma update_frame_frame (self : Analyzer) :
  (video_path (update_frame self), total_frames (update_frame self),
   fps (update_frame self), playing (update_frame self),
   clips (update_frame self), clip_start (update_frame self),
   clip_end (update_frame self))
  = (video_path self, total_frames self, fps self, playing self,
     clips self, clip_start self, clip_end self)
  ∧ (is_Some (cap (update_frame self)) ↔ is_Some (cap self)).
Proof.
  unfold update_frame.
  destruct (cap self) as [c|] eqn:E; [|by rewrite E].
  destruct (playing self) eqn:Ep; [|by rewrite E, Ep].
  destruct (read c) as [ret c']. simpl. split; [by rewrite ?Ep|].
  split; intros _; by eexists.
Qed.

(** X15.  [open_video] does nothing when the file dialog is cancelled.
    Otherwise it takes the path, the frame count (truncated to an integer)
    and the frame rate from the opened file, and keeps the clip list, the
    pending markers and the playing flag of the video before; while paused
    it also keeps the current frame. *)
Theorem open_video_keeps_clips (path : string) (video : VideoCapture)
    (self : Analyzer) :
  (path = "" → open_video path video self = self)
  ∧ (path ≠ "" →
     let self' := open_video path video self in
     video_path self' = path
     ∧ total_frames self' = py_int (CAP_PROP_FRAME_COUNT video)
     ∧ fps self' = CAP_PROP_FPS video
     ∧ is_Some (cap self')
     ∧ clips self' = clips self
     ∧ clip_start self' = clip_start self
     ∧ clip_end self' = clip_end self
     ∧ playing self' = playing self
     ∧ (playing self = false → current_frame self' = current_frame self)).
Proof.
  split.
  - intros ->. reflexivity.
  - intros Hp self'. unfold self', open_video. rewrite decide_False by done.
    destruct (update_frame_frame (attach_video path video self)) as [H Hcap].
    injection H as -> -> -> -> -> -> ->. simpl.
    split_and!; try done.
    + apply Hcap. by eexists.
    + intros Hpl. unfold update_frame. simpl. by rewrite Hpl.
Qed.

Lemma open_video_keeps_clips_witness :
  clips (open_video "second.mp4" second_video match_session)
  = clips match_session
  ∧ total_frames (open_video "second.mp4" second_video match_session) = 7200.
Proof.
  destruct (open_video_keeps_clips "second.mp4" second_video match_session)
    as [_ H].
  destruct H as (_ & H1 & _ & _ & H2 & _); [discriminate|].
  split; [exact H2 | exact H1].
Defined.

Lemma set_clips_set_clips (v w : pyval) (self : Analyzer) :
  set_clips v (set_clips w self) = set_clips v self.
Proof. reflexivity. Qed.

Lemma load_data_state ucl (path : string) file (self : Analyzer) :
  (load_data ucl path file self).2 = self
  ∨ ∃ v, (load_data ucl path file self).2 = set_clips v self.
Proof.
  unfold load_data. destruct (decide (path = "")); [by left|].
  destruct file as [e|[]]; try (by left).
  right. eexists. by destruct (ucl _).
Qed.

(** X16.  Of two loads the last one decides: loading an object after any
    other load leaves the window as that load alone would, and a second
    load that is cancelled, cannot be read or is no object leaves what the
    first one left. *)
Theorem load_data_last_wins
    (update_clips_list : Analyzer → option exn)
    (path1 path2 : string) (file1 file2 : exn + pyval) (self : Analyzer) :
  let after1 := (load_data update_clips_list path1 file1 self).2 in
  (∀ kv, path2 ≠ "" → file2 = inr (PDict kv) →
     (load_data update_clips_list path2 file2 after1).2
     = (load_data update_clips_list path2 file2 self).2)
  ∧ (path2 = "" ∨ (∃ e, file2 = inl e)
     ∨ (∃ v, file2 = inr v ∧ ∀ kv, v ≠ PDict kv) →
     (load_data update_clips_list path2 file2 after1).2 = after1).
Proof.
  intros after1. split.
  - intros kv Hp ->. rewrite !load_data_dict by done. simpl.
    destruct (load_data_state update_clips_list path1 file1 self)
      as [E | [v E]]; unfold after1; rewrite E; reflexivity.
  - intros [-> | [[e ->] | (v & -> & Hv)]].
    + reflexivity.
    + unfold load_data. by destruct (decide (path2 = "")).
    + unfold load_data. destruct (decide (path2 = "")); [done|].
      destruct v; try done. by destruct (Hv kv).
Qed.

Lemma load_data_last_wins_witness :
  (load_data (λ _, None) "b.json" (inr (PDict [("clips", PList [])]))
     (load_data (λ _, None) "a.json"
        (inr (PDict [("clips", PList [clip_dict 1 2 "Goal"])]))
        match_session).2).2
  = (load_data (λ _, None) "b.json" (inr (PDict [("clips", PList [])]))
       match_session).2.
Proof.
  destruct (load_data_last_wins (λ _, None) "a.json" "b.json"
              (inr (PDict [("clips", PList [clip_dict 1 2 "Goal"])]))
              (inr (PDict [("clips", PList [])])) match_session) as [H _].
  apply (H [("clips", PList [])]); [discriminate | reflexivity].
Defined.

(** X17.  Saving after a load writes a document with exactly the two keys
    [video_path] and [clips]: the path is the window's own, the clips are
    what the loaded object had under [clips] (the empty list if it had no
    such key), and every other key of the loaded object is gone. *)
Theorem save_data_after_load
    (update_clips_list : Analyzer → option exn)
    (path path' : string) (kv : list (string * pyval)) (self : Analyzer) :
  path ≠ "" → path' ≠ "" → video_path self ≠ "" →
  save_data path' None
    (load_data update_clips_list path (inr (PDict kv)) self).2
  = (Information,
     Some (PDict [("video_path", PStr (video_path self));
                  ("clips", dict_get kv "clips" (PList []))])).
Proof.
  intros Hp Hp' Hv. rewrite load_data_dict by done. simpl.
  unfold save_data. simpl. by rewrite !decide_False.
Qed.

Lemma save_data_after_load_witness :
  save_data "out.json" None
    (load_data (λ _, None) "in.json"
       (inr (PDict [("video_path", PStr "other.mp4"); ("note", PStr "x")]))
       match_session).2
  = (Information,
     Some (PDict [("video_path", PStr "match.mp4"); ("clips", PList [])])).
Proof.
  apply (save_data_after_load (λ _, None) "in.json" "out.json"
           [("video_path", PStr "other.mp4"); ("note", PStr "x")] match_session);
    discriminate.
Defined.

(** ** Time codes, for every frame number *)

Lemma string_length_app (s1 s2 : string) :
  String.length (s1 +:+ s2) = (String.length s1 + String.length s2)%nat.
Proof.
  induction s1 as [|c s1 IH]; [done|].
  change (String c s1 +:+ s2) with (String c (s1 +:+ s2)). simpl.
  by rewrite IH.
Qed.

Lemma zero_padded_length (n : Z) :
  0 ≤ n < 100 → String.length (zero_padded n) = 2%nat.
Proof.
  intros Hn.
  assert (Forall (λ n, String.length (zero_padded n) = 2%nat) (seqZ 0 100))
    as Hall.
  { apply (bool_decide_unpack _). by vm_compute. }
  apply (proj1 (Forall_forall _ _) Hall). apply elem_of_seqZ. lia.
Qed.

Lemma timecode_of_day (s : Z) :
  0 ≤ s < 86400 →
  0 ≤ s / 3600 < 24 ∧ 0 ≤ (s / 60) mod 60 < 60 ∧ 0 ≤ s mod 60 < 60
  ∧ String.length (timecode_unbounded s) = 8%nat.
Proof.
  intros Hs.
  assert (0 ≤ s / 3600 < 24) as Hh by (Z.to_euclidean_division_equations; lia).
  assert (0 ≤ (s / 60) mod 60 < 60) as Hm by (apply Z.mod_pos_bound; lia).
  assert (0 ≤ s mod 60 < 60) as Hsec by (apply Z.mod_pos_bound; lia).
  split_and!; try lia.
  unfold timecode_unbounded.
  rewrite !string_length_app, !zero_padded_length by lia. reflexivity.
Qed.

Lemma frames_to_time_mod (fps : number) (frames : Z) (text : string) :
  frames_to_time fps frames = Some text →
  ∃ secs, INT_MIN ≤ secs ≤ INT_MAX ∧ text = timecode_unbounded (secs mod 86400).
Proof.
  rewrite frames_to_time_of_seconds.
  destruct (if number_gt_0 fps then _ else _) as [s|]; simpl; [|done].
  destruct ((INT_MIN <=? s) && (s <=? INT_MAX)) eqn:E; [|done].
  intros [= <-]. exists s. apply in_int_range in E. split; [exact E|done].
Qed.

(** X18.  Whatever the frame number, negative ones included, and whatever
    [fps], an [int] or a [float], a NaN or an infinity included: when
    [frames_to_time] returns, it returns a time of day, eight characters
    [HH:MM:SS] with the hours below 24 and the minutes and seconds below
    60, for seconds that fit a C [int]; and when the time label is made, it
    has nineteen characters. *)
Theorem frames_to_time_is_time_of_day (fps : number) (frames : Z)
    (text : string) :
  frames_to_time fps frames = Some text →
  (∃ h m s,
     0 ≤ h < 24 ∧ 0 ≤ m < 60 ∧ 0 ≤ s < 60
     ∧ text = zero_padded h +:+ ":" +:+ zero_padded m +:+ ":" +:+ zero_padded s)
  ∧ String.length text = 8%nat
  ∧ (∀ self label,
       time_label fps self = Some label → String.length label = 19%nat).
Proof.
  assert (∀ f t, frames_to_time fps f = Some t → String.length t = 8%nat)
    as Hlen.
  { intros f t Ht. destruct (frames_to_time_mod fps f t Ht) as (secs & _ & ->).
    apply timecode_of_day. apply Z.mod_pos_bound. lia. }
  intros Htext. split_and!.
  - destruct (frames_to_time_mod fps frames text Htext) as (secs & _ & ->).
    pose proof (Z.mod_pos_bound secs 86400 ltac:(lia)) as Hs.
    destruct (timecode_of_day _ Hs) as (Hh & Hm & Hsec & _).
    exists (secs mod 86400 / 3600), ((secs mod 86400 / 60) mod 60),
      ((secs mod 86400) mod 60).
    split; [lia|]. split; [lia|]. split; [lia|]. reflexivity.
  - by eapply Hlen.
  - intros self label. unfold time_label.
    destruct (frames_to_time fps (current_frame self)) as [c|] eqn:Ec;
      simpl; [|done].
    destruct (frames_to_time fps (total_frames self)) as [t|] eqn:Et;
      simpl; [|done].
    intros [= <-]. rewrite !string_length_app.
    rewrite (Hlen _ _ Ec), (Hlen _ _ Et). reflexivity.
Qed.

Lemma frames_to_time_is_time_of_day_witness :
  String.length "23:59:59" = 8%nat
  ∧ time_label (PyInt 30) match_session = Some "00:00:00 / 00:03:00".
Proof.
  split.
  - apply (frames_to_time_is_time_of_day (PyFloat 30) (-30) "23:59:59").
    reflexivity.
  - reflexivity.
Defined.
